(** * Crypto Rotation Map: the signal engine, embedded and verified

    The repository holds several generations of one dashboard page.  Each
    generation is embedded in a module of its own, named after the place the
    source lives in:

    - [Cards]   : src/app/page.tsx, first document (lines 1-640), the card view
                  with 24h / 7d percent classifiers;
    - [Chart]   : src/unnamed/part_000, second document, the same classifiers
                  with the markets endpoint and a chart per card;
    - [Early]   : src/unnamed/part_001 (and part_002), the earliest page;
    - [Sectors] : src/app/page.tsx, second document (lines 641-1581), the
                  sector view with EMA structure, leaderboard and signals.

    Numbers.  A JavaScript [number] is [NaN], an infinity or a finite value
    ([Fin q], [q] the rational it denotes).  Arithmetic is binary64: each
    operation rounds its exact result to the nearest binary64 number, ties
    to even, and overflows to an infinity.  The scores of the sector view
    are sums of small integer literals and are kept as rationals.  A value of
    type [number | null] is an [option number], [None] being [null]. *)

From Stdlib Require Import Floats.
From Stdlib Require Import QArith Qround Qabs Qpower Qreduction Lqa Lia ZArith.
From Stdlib Require Import List String Ascii DecimalString.
From Stdlib Require Import Permutation Sorted.
Import ListNotations.

Open Scope Q_scope.
Open Scope string_scope.

(** A decimal float literal denotes the binary64 number nearest to it, as it
    does in JavaScript and in JSON. *)
Set Warnings "-inexact-float".

(** ** JavaScript values and built-ins used by the pages *)

Module JS.

(** A number: [NaN], one of the two infinities, or a finite value, given as
    the rational it denotes.  Every result of arithmetic is a binary64
    number (see [round64] below); the single zero of the model stands for
    both zeros of binary64, which the pages never tell apart. *)
Inductive number : Type :=
| NaN : number
| PInf : number
| NInf : number
| Fin (q : Q) : number.

(** [Number.isNaN]. *)
Definition isNaN (n : number) : bool :=
  match n with NaN => true | _ => false end.

(** The relational operators: every comparison with [NaN] is false. *)
Definition gt (a b : number) : bool :=
  match a, b with
  | Fin x, Fin y => negb (Qle_bool x y)
  | PInf, Fin _ | PInf, NInf | Fin _, NInf => true
  | _, _ => false
  end.

Definition lt (a b : number) : bool := gt b a.

Definition ge (a b : number) : bool :=
  match a, b with
  | Fin x, Fin y => Qle_bool y x
  | PInf, Fin _ | PInf, NInf | Fin _, NInf => true
  | PInf, PInf | NInf, NInf => true
  | _, _ => false
  end.

Definition le (a b : number) : bool := ge b a.

(** *** binary64 arithmetic

    An arithmetic operation of JavaScript returns the binary64 number
    nearest to the exact result, a tie going to the neighbour with the even
    significand (IEEE 754 roundTiesToEven); when that number would reach
    2^1024 the result is an infinity. *)

(** [floor (log2 q)] for a positive [q]. *)
Definition ilog2 (q : Q) : Z :=
  let d := (Z.log2 (Qnum q) - Z.log2 (Zpos (Qden q)))%Z in
  if Qle_bool (2 ^ d) q then d else (d - 1)%Z.

(** The nearest integer, the even one on a tie. *)
Definition roundHalfEven (t : Q) : Z :=
  let n := Qfloor t in
  match Qcompare (t - inject_Z n) (1 # 2) with
  | Lt => n
  | Gt => (n + 1)%Z
  | Eq => if Z.even n then n else (n + 1)%Z
  end.

(** The spacing of the binary64 numbers at the magnitude of [q]: 53
    significant bits, and 2^-1074 at the finest (the subnormal numbers). *)
Definition ulp (q : Q) : Q := 2 ^ Z.max (ilog2 (Qabs q) - 52) (-1074).

Definition nearest (q : Q) : Q :=
  inject_Z (roundHalfEven (q / ulp q)) * ulp q.

Definition round64 (x : Q) : number :=
  let q := Qred x in
  let r := nearest q in
  if Qle_bool (2 ^ 1024) (Qabs r)
  then (if Qle_bool 0 q then PInf else NInf)
  else Fin (Qred r).

(** The rationals that are binary64 numbers: rounding leaves them alone. *)
Definition isDouble (q : Q) : bool :=
  match round64 q with
  | Fin r => Qeq_bool r q
  | _ => false
  end.

(** Unary minus. *)
Definition neg (a : number) : number :=
  match a with
  | NaN => NaN
  | PInf => NInf
  | NInf => PInf
  | Fin x => Fin (- x)
  end.

(** The infinity of a sign. *)
Definition inf (positive : bool) : number :=
  if positive then PInf else NInf.

(** [a + b]: [NaN] is absorbing, and so is [Infinity - Infinity]. *)
Definition add (a b : number) : number :=
  match a, b with
  | NaN, _ | _, NaN => NaN
  | PInf, NInf | NInf, PInf => NaN
  | PInf, _ | _, PInf => PInf
  | NInf, _ | _, NInf => NInf
  | Fin x, Fin y => round64 (x + y)
  end.

(** [a - b]. *)
Definition sub (a b : number) : number := add a (neg b).

(** [a * b]: [Infinity * 0] is [NaN]. *)
Definition mul (a b : number) : number :=
  match a, b with
  | NaN, _ | _, NaN => NaN
  | Fin x, Fin y => round64 (x * y)
  | Fin x, PInf | PInf, Fin x =>
      if Qeq_bool x 0 then NaN else inf (Qle_bool 0 x)
  | Fin x, NInf | NInf, Fin x =>
      if Qeq_bool x 0 then NaN else inf (negb (Qle_bool 0 x))
  | PInf, PInf | NInf, NInf => PInf
  | PInf, NInf | NInf, PInf => NInf
  end.

(** [a / b].  A zero divisor is taken as [+0]; the pages divide by literals,
    by an array length and by [period + 1] only. *)
Definition div (a b : number) : number :=
  match a, b with
  | NaN, _ | _, NaN => NaN
  | Fin x, Fin y =>
      if Qeq_bool y 0
      then (if Qeq_bool x 0 then NaN else inf (Qle_bool 0 x))
      else round64 (x / y)
  | Fin _, PInf | Fin _, NInf => Fin 0
  | PInf, Fin y => inf (Qle_bool 0 y)
  | NInf, Fin y => inf (negb (Qle_bool 0 y))
  | _, _ => NaN
  end.

(** A count or an integer argument as a number. *)
Definition ofNat (n : nat) : number := round64 (inject_Z (Z.of_nat n)).

(** The number a primitive float of the Standard Library stands for.  It
    lets examples take their inputs from binary64 literals, and compares the
    operations above with the Standard Library's. *)
Definition ofFloat (f : PrimFloat.float) : number :=
  match FloatOps.Prim2SF f with
  | SpecFloat.S754_zero _ => Fin 0
  | SpecFloat.S754_infinity s => if s then NInf else PInf
  | SpecFloat.S754_nan => NaN
  | SpecFloat.S754_finite s m e =>
      Fin (Qred ((if s then -1 else 1) * inject_Z (Zpos m) * 2 ^ e))
  end.

(** Numeric equality of two values, [NaN] being equal to nothing but itself
    as a model value.  Used in statements only. *)
Definition same (a b : number) : Prop :=
  match a, b with
  | NaN, NaN | PInf, PInf | NInf, NInf => True
  | Fin x, Fin y => x == y
  | _, _ => False
  end.

(** Truthiness of a [number | null]: [null], [NaN] and zero are falsy. *)
Definition truthy (v : option number) : bool :=
  match v with
  | None => false
  | Some NaN => false
  | Some (Fin q) => negb (Qeq_bool q 0)
  | Some _ => true
  end.

(** A value as the provider's JSON (or a missing key) delivers it.  Strings,
    booleans and objects are kept as [JOther], carrying what [ToNumber] makes
    of them, which is all the pages observe of such a value. *)
Inductive value : Type :=
| JUndefined : value
| JNull : value
| JNumber (n : number) : value
| JOther (toNumber : number) : value.

(** [typeof v === "number"]. *)
Definition isNumber (v : value) : bool :=
  match v with JNumber _ => true | _ => false end.

(** The [Number(v)] conversion. *)
Definition Number (v : value) : number :=
  match v with
  | JUndefined => NaN
  | JNull => Fin 0
  | JNumber n => n
  | JOther n => n
  end.

(** [a ?? b]. *)
Definition nullish (a b : value) : value :=
  match a with
  | JUndefined | JNull => b
  | _ => a
  end.

(** Code that may throw: [TypeError] stands for any uncaught exception. *)
Inductive Result (A : Type) : Type :=
| Ok (a : A) : Result A
| TypeError : Result A.
Arguments Ok {A} a.
Arguments TypeError {A}.

Definition bind {A B : Type} (r : Result A) (k : A -> Result B) : Result B :=
  match r with
  | Ok a => k a
  | TypeError => TypeError
  end.

(** [arr.reduce(f)] without an initial value throws on an empty array. *)
Definition reduce1 {A : Type} (f : A -> A -> A) (arr : list A) : Result A :=
  match arr with
  | [] => TypeError
  | x :: rest => Ok (fold_left f rest x)
  end.

(** Reading a property of [arr[i]] throws when the index is out of range
    ([arr[i]] is then [undefined]). *)
Definition at_ {A : Type} (arr : list A) (i : nat) : Result A :=
  match nth_error arr i with
  | Some x => Ok x
  | None => TypeError
  end.

(** [arr.sort(cmp)]: ECMAScript requires the sort to be stable, and for a
    consistent comparator the result is the one stable ordering; it is
    computed here by stable insertion.  [cmp a b <= 0] keeps [a] first. *)
Section Sort.
Context {A : Type} (cmp : A -> A -> Q).

Fixpoint insert (x : A) (l : list A) : list A :=
  match l with
  | [] => [x]
  | y :: l' =>
      if Qle_bool (cmp x y) 0 then x :: y :: l' else y :: insert x l'
  end.

Fixpoint sort (l : list A) : list A :=
  match l with
  | [] => []
  | x :: l' => insert x (sort l')
  end.

End Sort.

(** [x.toFixed(digits)] for a finite [x] below 10^21 in magnitude: the sign,
    then the integer nearest to [|x| * 10^digits] (the larger one on a tie)
    written with [digits] decimals. *)
Fixpoint zeros (n : nat) : string :=
  match n with
  | O => ""
  | S n' => String "0" (zeros n')
  end.

Definition padLeft (s : string) (width : nat) : string :=
  zeros (width - String.length s) ++ s.

Definition pow10 (d : nat) : Q := inject_Z (10 ^ Z.of_nat d).

Definition toFixed (x : Q) (digits : nat) : string :=
  let sign := if Qle_bool 0 x then "" else "-" in
  let n := Qfloor (Qabs x * pow10 digits + (1 # 2)) in
  let m := padLeft (NilEmpty.string_of_uint (N.to_uint (Z.to_N n))) (S digits) in
  let k := String.length m in
  match digits with
  | O => sign ++ m
  | _ => sign ++ substring 0 (k - digits) m ++ "." ++ substring (k - digits) digits m
  end.

End JS.

Import JS.
Coercion Fin : Q >-> number.

Declare Scope js_scope.
Delimit Scope js_scope with js.
Notation "a >? b" := (gt a b) (at level 70, no associativity) : js_scope.
Notation "a <? b" := (lt a b) (at level 70, no associativity) : js_scope.
Notation "a >=? b" := (ge a b) (at level 70, no associativity) : js_scope.
Notation "a <=? b" := (le a b) (at level 70, no associativity) : js_scope.
Open Scope js_scope.

(** ** src/app/page.tsx, first document: the card view *)

Module Cards.

Record MarketEntry : Type := {
  price : option number;
  change24h : option number;
  change7d : option number
}.

Definition getSentiment (change24h : option number) : string :=
  match change24h with
  | None => "Neutral"
  | Some c =>
      if isNaN c then "Neutral"
      else if c >? 3 then "Strong Bullish"
      else if c >? 0.5 then "Bullish"
      else if c <? -3 then "Strong Bearish"
      else if c <? -0.5 then "Bearish"
      else "Neutral"
  end.

Definition getTrendLabel (change7d : option number) : string :=
  match change7d with
  | None => "Unknown"
  | Some c =>
      if isNaN c then "Unknown"
      else if c >? 15 then "Strong Uptrend"
      else if c >? 5 then "Uptrend"
      else if c <? -15 then "Strong Downtrend"
      else if c <? -5 then "Downtrend"
      else "Sideways"
  end.

Definition getTrendPhase (change7d : option number) : string :=
  match change7d with
  | None => "Unknown"
  | Some c =>
      if isNaN c then "Unknown"
      else if c >? 20 then "Parabolic Uptrend"
      else if c >? 10 then "Expansion Phase"
      else if c >? 3 then "Early Uptrend"
      else if c <? -20 then "Capitulation"
      else if c <? -10 then "Sharp Downtrend"
      else if c <? -3 then "Grinding Downtrend"
      else "Range / Compression"
  end.

Definition getAccelerationLabel (change24h change7d : option number) : string :=
  match change24h, change7d with
  | Some c24, Some c7 =>
      if isNaN c24 || isNaN c7 then "No clear acceleration"
      else
        let dailyAvg := div c7 7 in
        if c24 >? add dailyAvg 3 then "Short-term acceleration"
        else if c24 <? sub dailyAvg 3 then "Short-term deceleration"
        else "Stable vs recent trend"
  | _, _ => "No clear acceleration"
  end.

Definition getTrendScore (change7d : option number) : number :=
  match change7d with
  | None => 0
  | Some c => if isNaN c then 0 else div c 4
  end.

Definition getMomentumScore (change24h : option number) : number :=
  match change24h with
  | None => 0
  | Some c => if isNaN c then 0 else div c 3
  end.

Record TrafficLight : Type := {
  label : string;
  color : string;
  bg : string;
  border : string
}.

Definition getTrafficLight (rotationScore : number) : TrafficLight :=
  if rotationScore >=? 6 then
    {| label := "Green – Favorable rotation";
       color := "#22c55e";
       bg := "rgba(34,197,94,0.18)";
       border := "rgba(34,197,94,0.6)" |}
  else if rotationScore <=? -2 then
    {| label := "Red – High risk / fading";
       color := "#ef4444";
       bg := "rgba(239,68,68,0.16)";
       border := "rgba(239,68,68,0.6)" |}
  else
    {| label := "Yellow – Neutral / wait";
       color := "#facc15";
       bg := "rgba(250,204,21,0.14)";
       border := "rgba(250,204,21,0.55)" |}.

(** One provider record of the simple-price endpoint. *)
Record RawEntry : Type := {
  usd : value;
  usd_24h_change : value
}.

(** [entry?.field]: a missing entry reads as [undefined]. *)
Definition field (entry : option RawEntry) (f : RawEntry -> value) : value :=
  match entry with
  | None => JUndefined
  | Some e => f e
  end.

Definition toNumber (v : value) : number :=
  if isNumber v then Number v else Number (nullish v (JNumber NaN)).

Definition orNull (n : number) : option number :=
  if isNaN n then None else Some n.

(** The body of the loop of [load] (lines 223-242).  [random7d] is the value
    the page draws for its placeholder 7d change. *)
Definition buildEntry (entry : option RawEntry) (random7d : Q) : MarketEntry :=
  let price := toNumber (field entry usd) in
  let change24h := toNumber (field entry usd_24h_change) in
  {| price := orNull price;
     change24h := orNull change24h;
     change7d := Some (Fin random7d) |}.

(** What a card shows (lines 404-443); [None] is the placeholder card drawn
    when the price is missing. *)
Record Signals : Type := {
  sentiment : string;
  trendLabel : string;
  trendScore : number;
  momentumScore : number;
  rotationScore : number;
  trendPhase : string;
  accelerationLabel : string;
  traffic : TrafficLight
}.

Definition deriveSignals (change24h change7d : option number) : Signals :=
  let sentiment := getSentiment change24h in
  let trendLabel := getTrendLabel change7d in
  let trendScore := getTrendScore change7d in
  let momentumScore := getMomentumScore change24h in
  let rotationScore := add (mul trendScore 2) momentumScore in
  let trendPhase := getTrendPhase change7d in
  let accelerationLabel := getAccelerationLabel change24h change7d in
  let traffic := getTrafficLight rotationScore in
  {| sentiment := sentiment;
     trendLabel := trendLabel;
     trendScore := trendScore;
     momentumScore := momentumScore;
     rotationScore := rotationScore;
     trendPhase := trendPhase;
     accelerationLabel := accelerationLabel;
     traffic := traffic |}.

Definition card (entry : option MarketEntry) : option Signals :=
  let price := match entry with Some e => price e | None => None end in
  let change24h := match entry with Some e => change24h e | None => None end in
  let change7d := match entry with Some e => change7d e | None => None end in
  match price with
  | None => None
  | Some p => if isNaN p then None else Some (deriveSignals change24h change7d)
  end.

End Cards.

(** ** src/unnamed/part_000, second document: the card view with charts *)

Module Chart.

Record MarketEntry : Type := {
  price : option number;
  change24h : option number;
  change7d : option number;
  history7d : list number
}.

(** [MarketMap]: an object keyed by coin id; the latest write wins. *)
Definition MarketMap : Type := list (string * MarketEntry).

Definition set (map : MarketMap) (id : string) (e : MarketEntry) : MarketMap :=
  (id, e) :: map.


Definition getSentiment (change : option number) : string :=
  match change with
  | None => "Neutral"
  | Some c =>
      if isNaN c then "Neutral"
      else if c >? 3 then "Strong Bullish"
      else if c >? 0.5 then "Bullish"
      else if c <? -3 then "Strong Bearish"
      else if c <? -0.5 then "Bearish"
      else "Neutral"
  end.

Definition getTrendLabel (change : option number) : string :=
  match change with
  | None => "Unknown"
  | Some c =>
      if isNaN c then "Unknown"
      else if c >? 15 then "Strong Uptrend"
      else if c >? 5 then "Uptrend"
      else if c <? -15 then "Strong Downtrend"
      else if c <? -5 then "Downtrend"
      else "Sideways"
  end.

Definition getTrendPhase (change : option number) : string :=
  match change with
  | None => "Unknown"
  | Some c =>
      if isNaN c then "Unknown"
      else if c >? 20 then "Parabolic Uptrend"
      else if c >? 10 then "Expansion Phase"
      else if c >? 3 then "Early Uptrend"
      else if c <? -20 then "Capitulation"
      else if c <? -10 then "Sharp Downtrend"
      else if c <? -3 then "Grinding Downtrend"
      else "Range / Compression"
  end.

Definition getAccelerationLabel (c24 c7 : option number) : string :=
  match c24, c7 with
  | Some x24, Some x7 =>
      if isNaN x24 || isNaN x7 then "Stable"
      else
        let avg := div x7 7 in
        if x24 >? add avg 3 then "Short-term acceleration"
        else if x24 <? sub avg 3 then "Short-term deceleration"
        else "Stable vs recent trend"
  | _, _ => "Stable"
  end.

Definition getTrendScore (change : option number) : number :=
  match change with
  | None => 0
  | Some c => if isNaN c then 0 else div c 4
  end.

Definition getMomentumScore (change : option number) : number :=
  match change with
  | None => 0
  | Some c => if isNaN c then 0 else div c 3
  end.

Record TrafficLight : Type := {
  label : string;
  color : string;
  bg : string;
  border : string
}.

Definition getTrafficLight (score : number) : TrafficLight :=
  if score >=? 6 then
    {| label := "Green – Favorable rotation";
       color := "#22c55e";
       bg := "rgba(34,197,94,0.18)";
       border := "rgba(34,197,94,0.6)" |}
  else if score <=? -2 then
    {| label := "Red – High risk";
       color := "#ef4444";
       bg := "rgba(239,68,68,0.18)";
       border := "rgba(239,68,68,0.6)" |}
  else
    {| label := "Yellow – Neutral / wait";
       color := "#facc15";
       bg := "rgba(250,204,21,0.2)";
       border := "rgba(250,204,21,0.6)" |}.

(** One element of the markets endpoint's array.  [id] is [None] when the
    element has no usable id; [sparkline] is [None] when
    [sparkline_in_7d.price] is not an array. *)
Record RawCoin : Type := {
  id : option string;
  current_price : value;
  price_change_percentage_24h_in_currency : value;
  price_change_percentage_24h : value;
  price_change_percentage_7d_in_currency : value;
  price_change_percentage_7d : value;
  sparkline : option (list value)
}.

Definition orNull (n : number) : option number :=
  if isNaN n then None else Some n.

(** The entry written for one element (lines 330-351). *)
Definition buildEntry (coin : RawCoin) : MarketEntry :=
  let price := Number (nullish (current_price coin) (JNumber NaN)) in
  let c24 :=
    Number (nullish (price_change_percentage_24h_in_currency coin)
                    (price_change_percentage_24h coin)) in
  let c7 :=
    Number (nullish (price_change_percentage_7d_in_currency coin)
                    (price_change_percentage_7d coin)) in
  let prices7d :=
    match sparkline coin with
    | Some arr => filter (fun v => negb (isNaN v)) (map Number arr)
    | None => []
    end in
  {| price := orNull price;
     change24h := orNull c24;
     change7d := orNull c7;
     history7d := prices7d |}.


Record Signals : Type := {
  trend : string;
  sentiment : string;
  phase : string;
  accel : string;
  score : number;
  light : TrafficLight
}.

(** What a card derives from its entry (lines 459-472). *)
Definition deriveSignals (entry : option MarketEntry) : Signals :=
  let c24 := match entry with Some e => change24h e | None => None end in
  let c7 := match entry with Some e => change7d e | None => None end in
  let score := add (mul (getTrendScore c7) 2) (getMomentumScore c24) in
  {| trend := getTrendLabel c7;
     sentiment := getSentiment c24;
     phase := getTrendPhase c7;
     accel := getAccelerationLabel c24 c7;
     score := score;
     light := getTrafficLight score |}.

End Chart.

(** ** src/unnamed/part_001 and part_002: the earliest page *)

Module Early.

(** The placeholder trend record: [change7d] is the decimal written by
    [toFixed(2)], kept as the number it denotes; [None] when the property is
    missing. *)
Record TrendInfo : Type := {
  change7d : option Q
}.

Definition getSentiment (change : option number) : string :=
  match change with
  | None => "Neutral"
  | Some c =>
      if c >? 2 then "Bullish"
      else if c <? -2 then "Bearish"
      else "Neutral"
  end.

(** [trend?.change7d ?? 0]. *)
Definition change7dOrZero (trend : option TrendInfo) : Q :=
  match trend with
  | Some t => match change7d t with Some c => c | None => 0 end
  | None => 0
  end.

Definition getTrendLabel (price : option number) (trend : option TrendInfo) : string :=
  match price with
  | None => "Unknown"
  | Some _ =>
      let c7 := change7dOrZero trend in
      if c7 >? 5 then "Strong Uptrend"
      else if c7 >? 0 then "Uptrend"
      else if c7 <? -5 then "Strong Downtrend"
      else if c7 <? 0 then "Downtrend"
      else "Flat"
  end.

Definition getTrendScore (price : option number) (trend : option TrendInfo) : number :=
  match price with
  | None => 0
  | Some _ =>
      let c7 := change7dOrZero trend in
      c7 / 2
  end.

Definition getMomentumScore (change24h : option number) : number :=
  match change24h with
  | None => 0
  | Some c => div c 3
  end.

End Early.

(** ** src/app/page.tsx, second document: the sector view *)

Module Sectors.

Inductive Sector : Type := Macro | L1 | Oracle.

Definition sector_eqb (a b : Sector) : bool :=
  match a, b with
  | Macro, Macro | L1, L1 | Oracle, Oracle => true
  | _, _ => false
  end.

Definition sectorName (s : Sector) : string :=
  match s with
  | Macro => "Macro"
  | L1 => "L1"
  | Oracle => "Oracle"
  end.

Record Coin : Type := {
  id : string;
  symbol : string;
  name : string;
  sector : Sector
}.

Record MarketData : Type := {
  price : option number;
  change24h : option number
}.

Record TrendInfo : Type := {
  ema20 : number;
  ema50 : number;
  change7d : option number;
  spark : list number
}.

(** A rotation score is the sum of small integer literals, hence always a
    finite number: it is kept as a rational. *)
Record RotationItem : Type := {
  coin : Coin;
  score : Q
}.

Definition COINS : list Coin :=
  [ {| id := "bitcoin"; symbol := "BTC"; name := "Bitcoin"; sector := Macro |};
    {| id := "ethereum"; symbol := "ETH"; name := "Ethereum"; sector := L1 |};
    {| id := "solana"; symbol := "SOL"; name := "Solana"; sector := L1 |};
    {| id := "chainlink"; symbol := "LINK"; name := "Chainlink"; sector := Oracle |};
    {| id := "avalanche-2"; symbol := "AVAX"; name := "Avalanche"; sector := L1 |} ].

(** [for (let i = from; i < from + count; i++) s = body(i, s)]. *)
Fixpoint forLoop {S : Type} (count : nat) (i : nat) (body : nat -> S -> S) (s : S) : S :=
  match count with
  | O => s
  | Datatypes.S count' => forLoop count' (Datatypes.S i) body (body i s)
  end.

(** [prices[i]] inside arithmetic: an index out of range reads [undefined],
    which arithmetic turns into [NaN]. *)
Definition sample (prices : list number) (i : nat) : number :=
  match nth_error prices i with
  | Some p => p
  | None => NaN
  end.

(** [calculateEMA] (lines 686-697), for a period that is a non-negative
    integer (the page passes 20 and 50).  The result is a [value] because the
    function hands back [prices[0]] untouched when the loop has nothing to
    do, and that is [undefined] for an empty array. *)
Definition calculateEMA (prices : list number) (period : nat) : value :=
  if (List.length prices <? period)%nat then JNumber NaN
  else
    let k := div 2 (add (ofNat period) 1) in
    match prices with
    | [] => JUndefined
    | first :: _ =>
        JNumber
          (forLoop (List.length prices - 1) 1
             (fun i ema => add (mul (sample prices i) k) (mul ema (sub 1 k)))
             first)
    end.

Record Sentiment : Type := {
  label : string;
  color : string;
  description : string
}.

Definition SENTIMENT_strongUp : Q := 5.
Definition SENTIMENT_mildUp : Q := 2.
Definition SENTIMENT_mildDown : Q := -2.
Definition SENTIMENT_strongDown : Q := -5.

Definition getSentiment (change : option number) : Sentiment :=
  let unknown :=
    {| label := "Unknown"; color := "gray";
       description := "No clear data yet." |} in
  match change with
  | None => unknown
  | Some c =>
      if isNaN c then unknown
      else if c >? SENTIMENT_strongUp then
        {| label := "Green"; color := "#22c55e";
           description := "Strong uptrend / FOMO zone. Late longs are risky." |}
      else if c >? SENTIMENT_mildUp then
        {| label := "Light Green"; color := "#4ade80";
           description := "Healthy uptrend. Momentum building." |}
      else if c <? SENTIMENT_strongDown then
        {| label := "Red"; color := "#ef4444";
           description := "Strong selloff / panic zone. Could be capitulation." |}
      else if c <? SENTIMENT_mildDown then
        {| label := "Orange"; color := "#fb923c";
           description := "Leaning bearish. Weakness but not full panic." |}
      else
        {| label := "Yellow"; color := "#eab308";
           description := "Sideways chop. Easy to get chopped up." |}
  end.

(** Trend score from EMA structure (lines 751-771). *)
Definition getTrendScore (price : option number) (trend : option TrendInfo) : Q :=
  match price, trend with
  | Some p, Some t =>
      if negb (truthy price) || isNaN (ema20 t) || isNaN (ema50 t) then 0
      else if (p >? ema20 t) && (ema20 t >? ema50 t) then 2
      else if ema20 t >? ema50 t then 1
      else if (p <? ema20 t) && (ema20 t <? ema50 t) then -2
      else -1
  | _, _ => 0
  end.

(** Short-term momentum score from the 24h change (lines 774-784). *)
Definition getMomentumScore (change : option number) : Q :=
  match change with
  | None => 0
  | Some c =>
      if isNaN c then 0
      else if c >? 7 then 3
      else if c >? 3 then 2
      else if c >? 0 then 1
      else if c <? -7 then -3
      else if c <? -3 then -2
      else if c <? 0 then -1
      else 0
  end.

Definition getTrendLabel (price : option number) (trend : option TrendInfo) : string :=
  let score := getTrendScore price trend in
  if Qeq_bool score 2 then "Trend: Strong Bullish (stacked EMAs)"
  else if Qeq_bool score 1 then "Trend: Bullish (EMA20 above EMA50)"
  else if Qeq_bool score (-2) then "Trend: Strong Bearish (stacked EMAs)"
  else if Qeq_bool score (-1) then "Trend: Bearish (EMA20 below EMA50)"
  else "Trend: Unknown".

(** The state of the page: the two fetched tables ([None] while not loaded)
    and the sector filter ([None] is "All"). *)
Record State : Type := {
  marketData : option (string -> option MarketData);
  trendData : option (string -> option TrendInfo);
  sectorFilter : option Sector
}.

(** [md?.price ?? null] and [md?.change24h ?? null]. *)
Definition priceOf (md : option MarketData) : option number :=
  match md with Some d => price d | None => None end.

Definition changeOf (md : option MarketData) : option number :=
  match md with Some d => change24h d | None => None end.

(** Apply sector filter (lines 950-952). *)
Definition visibleCoins (COINS : list Coin) (sectorFilter : option Sector) : list Coin :=
  filter
    (fun coin =>
       match sectorFilter with
       | None => true
       | Some s => sector_eqb (sector coin) s
       end)
    COINS.

(** The comparator [(a, b) => b.score - a.score]. *)
Definition byScoreDesc (a b : RotationItem) : Q := score b - score a.

(** Rotation list among the visible coins (lines 955-972). *)
Definition rotationList (COINS : list Coin) (st : State) : list RotationItem :=
  match marketData st with
  | None => []
  | Some market =>
      sort byScoreDesc
        (map
           (fun coin =>
              let md := market (id coin) in
              let trend :=
                match trendData st with
                | Some t => t (id coin)
                | None => None
                end in
              let price := priceOf md in
              let change := changeOf md in
              let trendScore := getTrendScore price trend in
              let momentumScore := getMomentumScore change in
              let score := momentumScore + 2 * trendScore in
              {| coin := coin; score := score |})
           (visibleCoins COINS (sectorFilter st)))
  end.

(** The object [{ Macro: [], L1: [], Oracle: [] }] and its updates. *)
Record SectorMap : Type := {
  macro : list Q;
  l1 : list Q;
  oracle : list Q
}.

Definition emptySectorMap : SectorMap :=
  {| macro := []; l1 := []; oracle := [] |}.

(** [sectorMap[s].push(x)]. *)
Definition push (m : SectorMap) (s : Sector) (x : Q) : SectorMap :=
  match s with
  | Macro => {| macro := (macro m ++ [x])%list; l1 := l1 m; oracle := oracle m |}
  | L1 => {| macro := macro m; l1 := (l1 m ++ [x])%list; oracle := oracle m |}
  | Oracle => {| macro := macro m; l1 := l1 m; oracle := (oracle m ++ [x])%list |}
  end.

(** [Object.entries(sectorMap)], in insertion order. *)
Definition entries (m : SectorMap) : list (Sector * list Q) :=
  [(Macro, macro m); (L1, l1 m); (Oracle, oracle m)].

Record SectorStat : Type := {
  stat_sector : Sector;
  avg : Q
}.

(** [arr.reduce((a, b) => a + b, 0) / arr.length]; the page calls it on
    non-empty arrays only (the filter of line 1002). *)
Definition average (arr : list Q) : Q :=
  fold_left Qplus arr 0 / inject_Z (Z.of_nat (List.length arr)).

Definition byAvgDesc (a b : SectorStat) : Q := avg b - avg a.

(** Sector stats (lines 992-1007). *)
Definition sectorStats (items : list RotationItem) : list SectorStat :=
  let sectorMap :=
    fold_left (fun m item => push m (sector (coin item)) (score item))
              items emptySectorMap in
  sort byAvgDesc
    (map (fun e => {| stat_sector := fst e; avg := average (snd e) |})
       (filter (fun e => (0 <? List.length (snd e))%nat) (entries sectorMap))).

(** A message pushed on [signalMessages], with the values its template
    string interpolates. *)
Inductive Signal : Type :=
| Leading (leader second : SectorStat)
| Abandoned (laggard : SectorStat)
| Acceleration (strongest : RotationItem)
| Capitulation (weakest : RotationItem).

(** The template strings of lines 1016-1051. *)
Definition render (s : Signal) : string :=
  match s with
  | Leading leader second =>
      sectorName (stat_sector leader)
      ++ " sector clearly leading rotation (avg score "
      ++ toFixed (avg leader) 1 ++ " vs "
      ++ sectorName (stat_sector second) ++ " "
      ++ toFixed (avg second) 1 ++ ")."
  | Abandoned laggard =>
      sectorName (stat_sector laggard)
      ++ " sector is being abandoned (avg score "
      ++ toFixed (avg laggard) 1 ++ ")."
  | Acceleration strongest =>
      symbol (coin strongest)
      ++ " is in acceleration mode (rotation score "
      ++ toFixed (score strongest) 0 ++ ")."
  | Capitulation weakest =>
      symbol (coin weakest)
      ++ " is in capitulation mode (rotation score "
      ++ toFixed (score weakest) 0 ++ ")."
  end.

Notation "x <- r ;; k" := (bind r (fun x => k))
  (at level 61, r at next level, right associativity).

(** The body of [if (items.length > 0)] and its guard (lines 990-1054),
    as the list of messages pushed, in order. *)
Definition signalEvents (items : list RotationItem) : Result (list Signal) :=
  if (0 <? List.length items)%nat then
    let sectorStats := sectorStats items in
    sectorSignals <-
      (if (2 <=? List.length sectorStats)%nat then
         leader <- at_ sectorStats 0 ;;
         second <- at_ sectorStats 1 ;;
         laggard <- at_ sectorStats (List.length sectorStats - 1) ;;
         Ok ((if Qle_bool 3 (avg leader) && Qle_bool 1.5 (avg leader - avg second)
              then [Leading leader second] else [])
             ++ (if Qle_bool (avg laggard) (-2)
                 then [Abandoned laggard] else []))%list
       else Ok []) ;;
    strongest <-
      reduce1 (fun best cur =>
                 if negb (Qle_bool (score cur) (score best)) then cur else best)
              items ;;
    weakest <-
      reduce1 (fun worst cur =>
                 if negb (Qle_bool (score worst) (score cur)) then cur else worst)
              items ;;
    Ok (sectorSignals
        ++ (if Qle_bool 6 (score strongest) then [Acceleration strongest] else [])
        ++ (if Qle_bool (score weakest) (-6) then [Capitulation weakest] else []))%list
  else Ok [].

(** The items built over all of [COINS] (lines 977-988). *)
Definition allItems (COINS : list Coin)
    (market : string -> option MarketData)
    (trends : string -> option TrendInfo) : list RotationItem :=
  map
    (fun coin =>
       let md := market (id coin) in
       let trend := trends (id coin) in
       let price := priceOf md in
       let change := changeOf md in
       let trendScore := getTrendScore price trend in
       let momentumScore := getMomentumScore change in
       {| coin := coin; score := momentumScore + 2 * trendScore |})
    COINS.

(** Global rotation signals across all coins (lines 975-1055). *)
Definition signalMessages (COINS : list Coin) (st : State) : Result (list string) :=
  match marketData st, trendData st with
  | Some market, Some trends =>
      events <- signalEvents (allItems COINS market trends) ;;
      Ok (map render events)
  | _, _ => Ok []
  end.

(** What the page computes on one render. *)
Record View : Type := {
  view_visibleCoins : list Coin;
  view_rotationList : list RotationItem;
  view_signalMessages : list string
}.

Definition Home (COINS : list Coin) (st : State) : Result View :=
  msgs <- signalMessages COINS st ;;
  Ok {| view_visibleCoins := visibleCoins COINS (sectorFilter st);
        view_rotationList := rotationList COINS st;
        view_signalMessages := msgs |}.

End Sectors.

(** ** The specification's vocabulary

    Definitions that follow the words of the specification, to be compared
    with the code above. *)

Module Spec.

(** "k = 2 / (period + 1)". *)
Definition smoothing (period : nat) : number :=
  div 2 (add (ofNat period) 1).

(** "ema = sample * k + ema * (1 - k)". *)
Definition emaStep (k : number) (ema sample : number) : number :=
  add (mul sample k) (mul ema (sub 1 k)).

(** "Seed with series[0]; for each subsequent sample, ..." *)
Definition emaFold (period : nat) (first : number) (rest : list number) : number :=
  fold_left (emaStep (smoothing period)) rest first.

(** An unknown result: NaN, or no number at all. *)
Definition isUnknown (v : value) : bool :=
  match v with
  | JNumber n => isNaN n
  | _ => true
  end.

(** A finite sample: a binary64 number, neither NaN nor an infinity. *)
Definition finite (n : number) : Prop :=
  match n with
  | Fin q => isDouble q = true
  | _ => False
  end.


(** The coins of one sector, in input order. *)
Definition members (items : list Sectors.RotationItem) (s : Sectors.Sector)
  : list Sectors.RotationItem :=
  filter (fun it => Sectors.sector_eqb (Sectors.sector (Sectors.coin it)) s) items.

(** The sectors that have members. *)
Definition populated (items : list Sectors.RotationItem) : list Sectors.Sector :=
  filter (fun s => match members items s with [] => false | _ => true end)
         [Sectors.Macro; Sectors.L1; Sectors.Oracle].

Fixpoint total (l : list Q) : Q :=
  match l with
  | [] => 0
  | x :: l' => x + total l'
  end.

(** "Arithmetic mean of rotationScore" over the members of a sector. *)
Definition mean (items : list Sectors.RotationItem) (s : Sectors.Sector) : Q :=
  total (map Sectors.score (members items s))
  / inject_Z (Z.of_nat (List.length (members items s))).

(** The four messages, in the order the specification lists them. *)
Inductive Kind : Type :=
| SectorLeading | SectorAbandoned | StrongestCoin | WeakestCoin.

Definition kind (e : Sectors.Signal) : Kind :=
  match e with
  | Sectors.Leading _ _ => SectorLeading
  | Sectors.Abandoned _ => SectorAbandoned
  | Sectors.Acceleration _ => StrongestCoin
  | Sectors.Capitulation _ => WeakestCoin
  end.

(** The entries of a leaderboard that carry the score [q], in board order. *)
Definition withScore (q : Q) (l : list Sectors.RotationItem)
  : list Sectors.RotationItem :=
  filter (fun it => Qeq_bool (Sectors.score it) q) l.

(** The rotation score of a coin in the sector view: "momentum + 2 x trend". *)
Definition rotationScore (st : Sectors.State) (c : Sectors.Coin) : Q :=
  let md := match Sectors.marketData st with
            | Some market => market (Sectors.id c)
            | None => None
            end in
  let trend := match Sectors.trendData st with
               | Some trends => trends (Sectors.id c)
               | None => None
               end in
  Sectors.getMomentumScore (Sectors.changeOf md)
  + 2 * Sectors.getTrendScore (Sectors.priceOf md) trend.

(** The sectors present in a coin list. *)
Definition sectorsOf (COINS : list Sectors.Coin) : list Sectors.Sector :=
  filter (fun s => existsb (fun c => Sectors.sector_eqb (Sectors.sector c) s) COINS)
         [Sectors.Macro; Sectors.L1; Sectors.Oracle].

End Spec.

(** * Properties *)

(** ** Comparisons of finite numbers *)

Lemma gt_Fin (x y : Q) : gt (Fin x) (Fin y) = true <-> y < x.
Proof.
  unfold gt. rewrite Bool.negb_true_iff.
  split; intro H.
  - apply Qnot_le_lt. intro Hle. apply Qle_bool_iff in Hle. congruence.
  - destruct (Qle_bool x y) eqn:E; [|reflexivity].
    apply Qle_bool_iff in E. exfalso. apply (Qlt_not_le _ _ H E).
Qed.

Lemma ge_Fin (x y : Q) : ge (Fin x) (Fin y) = true <-> y <= x.
Proof. unfold ge. apply Qle_bool_iff. Qed.

Lemma gt_cases (x y : Q) :
  {gt (Fin x) (Fin y) = true /\ y < x} + {gt (Fin x) (Fin y) = false /\ x <= y}.
Proof.
  destruct (gt (Fin x) (Fin y)) eqn:E.
  - left. split; [reflexivity | now apply gt_Fin].
  - right. split; [reflexivity|].
    destruct (Qlt_le_dec y x) as [H|H]; [|exact H].
    apply gt_Fin in H. congruence.
Qed.

Lemma ge_cases (x y : Q) :
  {ge (Fin x) (Fin y) = true /\ y <= x} + {ge (Fin x) (Fin y) = false /\ x < y}.
Proof.
  destruct (ge (Fin x) (Fin y)) eqn:E.
  - left. split; [reflexivity | now apply ge_Fin].
  - right. split; [reflexivity|].
    destruct (Qlt_le_dec x y) as [H|H]; [exact H|].
    apply ge_Fin in H. congruence.
Qed.

Lemma Qle_bool_cases (x y : Q) :
  {Qle_bool x y = true /\ x <= y} + {Qle_bool x y = false /\ y < x}.
Proof.
  destruct (Qle_bool x y) eqn:E.
  - left. split; [reflexivity | now apply Qle_bool_iff].
  - right. split; [reflexivity|].
    destruct (Qlt_le_dec y x) as [H|H]; [exact H|].
    apply Qle_bool_iff in H. congruence.
Qed.

(** Decide every comparison in the goal, keeping the matching inequality. *)
Ltac compare_all :=
  unfold lt, le in *;
  repeat match goal with
  | |- context [gt (Fin ?x) (Fin ?y)] =>
      let H := fresh "Hc" in
      destruct (gt_cases x y) as [[-> H] | [-> H]]
  | |- context [ge (Fin ?x) (Fin ?y)] =>
      let H := fresh "Hc" in
      destruct (ge_cases x y) as [[-> H] | [-> H]]
  | |- context [Qle_bool ?x ?y] =>
      let H := fresh "Hc" in
      destruct (Qle_bool_cases x y) as [[-> H] | [-> H]]
  end.

(** ** binary64 rounding *)

Lemma two_pos (z : Z) : 0 < 2 ^ z.
Proof. apply Qpower_0_lt. reflexivity. Qed.

Lemma two_pow_Z (z : Z) : (0 <= z)%Z -> 2 ^ z == inject_Z (2 ^ z).
Proof. intros H. symmetry. apply (Zpower_Qpower 2 z H). Qed.

Lemma two_pow_succ (z : Z) : 2 ^ (z + 1) == 2 * 2 ^ z.
Proof. rewrite Qpower_plus by discriminate. rewrite Qpower_1_r. ring. Qed.

Lemma two_pow_le (a b : Z) : (a <= b)%Z -> 2 ^ a <= 2 ^ b.
Proof. intros H. apply Qpower_le_compat_l; [exact H | discriminate]. Qed.

Lemma two_pow_lt_inv (a b : Z) : 2 ^ a < 2 ^ b -> (a < b)%Z.
Proof.
  intros H. destruct (Z.lt_ge_cases a b) as [L|L]; [exact L|].
  apply two_pow_le in L. lra.
Qed.

(** [ilog2] is the floor of the binary logarithm. *)
Lemma ilog2_spec (q : Q) : 0 < q -> 2 ^ ilog2 q <= q /\ q < 2 ^ (ilog2 q + 1).
Proof.
  intros Hq. unfold ilog2.
  set (d := (Z.log2 (Qnum q) - Z.log2 (Z.pos (Qden q)))%Z).
  assert (Hlo : 2 ^ (d - 1) < q /\ q < 2 ^ (d + 1)).
  { destruct q as [a b]. cbn [Qnum Qden] in d.
    assert (Ha : (0 < a)%Z) by (unfold Qlt in Hq; cbn in Hq; lia).
    pose proof (Z.log2_spec a Ha) as [Ha1 Ha2].
    pose proof (Z.log2_spec (Z.pos b) (Pos2Z.is_pos b)) as [Hb1 Hb2].
    pose proof (Z.log2_nonneg a) as La.
    pose proof (Z.log2_nonneg (Z.pos b)) as Lb.
    set (la := Z.log2 a) in *. set (lb := Z.log2 (Z.pos b)) in *.
    assert (E1 : 2 ^ la == inject_Z (2 ^ la)) by now apply two_pow_Z.
    assert (E2 : 2 ^ lb == inject_Z (2 ^ lb)) by now apply two_pow_Z.
    assert (E3 : 2 ^ (d + 1) * 2 ^ lb == 2 * 2 ^ la).
    { rewrite <- Qpower_plus by discriminate. rewrite <- two_pow_succ.
      subst d. replace (la - lb + 1 + lb)%Z with (la + 1)%Z by lia. reflexivity. }
    assert (E4 : 2 ^ (d - 1) * (2 * 2 ^ lb) == 2 ^ la).
    { rewrite <- two_pow_succ. rewrite <- Qpower_plus by discriminate.
      subst d. replace (la - lb - 1 + (lb + 1))%Z with la by lia. reflexivity. }
    assert (Hqa : (a # b) * inject_Z (Z.pos b) == inject_Z a).
    { unfold Qeq, Qmult, inject_Z. cbn. lia. }
    assert (Ia1 : inject_Z (2 ^ la) <= inject_Z a) by (rewrite <- Zle_Qle; exact Ha1).
    assert (Ia2 : inject_Z a < 2 * inject_Z (2 ^ la)).
    { change 2 with (inject_Z 2). rewrite <- inject_Z_mult. rewrite <- Zlt_Qlt.
      rewrite Z.pow_succ_r in Ha2 by exact La. exact Ha2. }
    assert (Ib1 : inject_Z (2 ^ lb) <= inject_Z (Z.pos b)) by (rewrite <- Zle_Qle; exact Hb1).
    assert (Ib2 : inject_Z (Z.pos b) < 2 * inject_Z (2 ^ lb)).
    { change 2 with (inject_Z 2). rewrite <- inject_Z_mult. rewrite <- Zlt_Qlt.
      rewrite Z.pow_succ_r in Hb2 by exact Lb. exact Hb2. }
    pose proof (two_pos (d + 1)) as P1. pose proof (two_pos (d - 1)) as P2.
    pose proof (two_pos la) as P3. pose proof (two_pos lb) as P4.
    rewrite <- E1 in *. rewrite <- E2 in *.
    set (x := a # b) in *. set (y := inject_Z (Z.pos b)) in *.
    set (A := 2 ^ la) in *. set (B := 2 ^ lb) in *.
    set (U := 2 ^ (d + 1)) in *. set (L := 2 ^ (d - 1)) in *.
    clearbody x y A B U L.
    split; nra. }
  destruct Hlo as [H1 H2].
  destruct (Qle_bool (2 ^ d) q) eqn:E.
  - apply Qle_bool_iff in E. split; assumption.
  - replace (d - 1 + 1)%Z with d by lia. split; [lra|].
    destruct (Qlt_le_dec q (2 ^ d)) as [L|L]; [exact L|].
    apply Qle_bool_iff in L. congruence.
Qed.

Lemma ilog2_mono (v g : Q) : 0 < v -> v <= g -> (ilog2 v <= ilog2 g)%Z.
Proof.
  intros Hv Hle.
  destruct (ilog2_spec v Hv) as [V1 _].
  assert (Hg : 0 < g) by lra.
  destruct (ilog2_spec g Hg) as [_ G2].
  assert (L : 2 ^ ilog2 v < 2 ^ (ilog2 g + 1)) by lra.
  apply two_pow_lt_inv in L. lia.
Qed.

Lemma ilog2_ge (a : Z) (v : Q) : 2 ^ a <= v -> (a <= ilog2 v)%Z.
Proof.
  intros H. pose proof (two_pos a) as P.
  assert (Hv : 0 < v) by lra.
  destruct (ilog2_spec v Hv) as [_ V2].
  assert (L : 2 ^ a < 2 ^ (ilog2 v + 1)) by lra.
  apply two_pow_lt_inv in L. lia.
Qed.

Lemma roundHalfEven_floor (t : Q) :
  (Qfloor t <= roundHalfEven t <= Qfloor t + 1)%Z.
Proof.
  unfold roundHalfEven.
  destruct (Qcompare (t - inject_Z (Qfloor t)) (1 # 2));
    [destruct (Z.even (Qfloor t))| |]; lia.
Qed.

Lemma roundHalfEven_ge (t : Q) (N : Z) : inject_Z N <= t -> (N <= roundHalfEven t)%Z.
Proof.
  intros H. apply Qfloor_resp_le in H. rewrite Qfloor_Z in H.
  pose proof (roundHalfEven_floor t). lia.
Qed.

Lemma roundHalfEven_le (t : Q) (N : Z) : t <= inject_Z N -> (roundHalfEven t <= N)%Z.
Proof.
  intros H. pose proof (Qfloor_le t) as F.
  assert (Fn : (Qfloor t <= N)%Z) by (rewrite Zle_Qle; lra).
  unfold roundHalfEven.
  destruct (Qcompare (t - inject_Z (Qfloor t)) (1 # 2)) eqn:E.
  - apply Qeq_alt in E.
    assert (L : inject_Z (Qfloor t) < inject_Z N) by lra.
    rewrite <- Zlt_Qlt in L. destruct (Z.even (Qfloor t)); lia.
  - exact Fn.
  - apply Qgt_alt in E.
    assert (L : inject_Z (Qfloor t) < inject_Z N) by lra.
    rewrite <- Zlt_Qlt in L. lia.
Qed.

Lemma roundHalfEven_Z (t : Q) (n : Z) : t == inject_Z n -> roundHalfEven t = n.
Proof.
  intros H.
  assert (A : (roundHalfEven t <= n)%Z) by (apply roundHalfEven_le; lra).
  assert (B : (n <= roundHalfEven t)%Z) by (apply roundHalfEven_ge; lra).
  lia.
Qed.

Lemma ulp_pos (q : Q) : 0 < ulp q.
Proof. apply two_pos. Qed.

(** The grid of a smaller number is finer. *)
Lemma ulp_mono (v g : Q) :
  ~ v == 0 -> Qabs v <= Qabs g ->
  exists k : Z, (0 <= k)%Z /\ ulp g == inject_Z (2 ^ k) * ulp v.
Proof.
  intros Hv Hle.
  assert (Pv : 0 < Qabs v).
  { pose proof (Qabs_nonneg v) as H. apply Qle_lteq in H as [H|H]; [exact H|].
    exfalso. apply Hv.
    destruct (Qlt_le_dec v 0) as [N|N].
    - rewrite (Qabs_neg v) in H by lra. lra.
    - rewrite (Qabs_pos v) in H by lra. lra. }
  pose proof (ilog2_mono _ _ Pv Hle) as M.
  unfold ulp.
  set (ev := Z.max (ilog2 (Qabs v) - 52) (-1074)).
  set (eg := Z.max (ilog2 (Qabs g) - 52) (-1074)).
  exists (eg - ev)%Z. split; [subst ev eg; lia|].
  rewrite <- two_pow_Z by (subst ev eg; lia).
  rewrite <- Qpower_plus by discriminate.
  replace (eg - ev + ev)%Z with eg by lia. reflexivity.
Qed.

Lemma nearest_between (v : Q) (N : Z) :
  Qabs v <= inject_Z N * ulp v -> Qabs (nearest v) <= inject_Z N * ulp v.
Proof.
  intros H. pose proof (ulp_pos v) as U.
  apply Qabs_Qle_condition in H as [H1 H2].
  assert (A : (roundHalfEven (v / ulp v) <= N)%Z).
  { apply roundHalfEven_le. apply Qle_shift_div_r; [exact U | exact H2]. }
  assert (B : (- N <= roundHalfEven (v / ulp v))%Z).
  { apply roundHalfEven_ge. apply Qle_shift_div_l; [exact U|].
    rewrite inject_Z_opp. lra. }
  unfold nearest. set (r := roundHalfEven (v / ulp v)) in *.
  apply Qabs_Qle_condition.
  rewrite Zle_Qle in A, B. rewrite inject_Z_opp in B.
  set (x := inject_Z r) in *. set (y := inject_Z N) in *. set (u := ulp v) in *.
  clearbody x y u. split; nra.
Qed.

Lemma Qabs_inject_Z (n : Z) : Qabs (inject_Z n) == inject_Z (Z.abs n).
Proof. unfold inject_Z. symmetry. apply Zabs_Qabs. Qed.

(** Rounding never passes a number of the format. *)
Lemma nearest_upper (v g : Q) (n : Z) :
  g == inject_Z n * ulp g -> Qabs v <= Qabs g -> Qabs (nearest v) <= Qabs g.
Proof.
  intros Hg Hle.
  destruct (Qeq_dec v 0) as [Hz|NZ].
  - assert (E : Qabs (nearest v) <= inject_Z 0 * ulp v).
    { apply nearest_between.
      assert (A : Qabs v == 0) by (rewrite Hz; reflexivity).
      rewrite A. change (inject_Z 0) with 0. lra. }
    change (inject_Z 0) with 0 in E. pose proof (Qabs_nonneg g). lra.
  - destruct (ulp_mono v g NZ Hle) as (k & Hk & E).
    assert (G : Qabs g == inject_Z (Z.abs (n * 2 ^ k)) * ulp v).
    { rewrite <- Qabs_inject_Z. rewrite <- (Qabs_pos (ulp v))
        by (apply Qlt_le_weak, ulp_pos).
      rewrite <- Qabs_Qmult. apply Qabs_wd.
      rewrite Hg at 1. rewrite E. rewrite inject_Z_mult. ring. }
    rewrite G. apply nearest_between. rewrite <- G. exact Hle.
Qed.

Lemma nearest_nonneg (v : Q) : 0 <= v -> 0 <= nearest v.
Proof.
  intros H. pose proof (ulp_pos v) as U. unfold nearest.
  assert (A : (0 <= roundHalfEven (v / ulp v))%Z).
  { apply roundHalfEven_ge. apply Qle_shift_div_l; [exact U|].
    change (inject_Z 0) with 0. lra. }
  rewrite Zle_Qle in A. change (inject_Z 0) with 0 in A.
  set (x := inject_Z _) in *. set (u := ulp v) in *. clearbody x u. nra.
Qed.

(** Rounding never falls below a power of two of the format. *)
Lemma nearest_lower (a : Z) (v : Q) :
  (-1074 <= a)%Z -> 2 ^ a <= v -> 2 ^ a <= nearest v.
Proof.
  intros Ha H. pose proof (two_pos a) as P.
  assert (Hv : 0 < v) by lra.
  assert (Ev : Qabs v == v) by (apply Qabs_pos; lra).
  assert (H' : 2 ^ a <= Qabs v) by lra.
  assert (Hv' : 0 < Qabs v) by lra.
  pose proof (ilog2_ge a _ H') as L.
  destruct (ilog2_spec _ Hv') as [V1 _].
  pose proof (ulp_pos v) as U.
  unfold nearest, ulp in *.
  set (l := ilog2 (Qabs v)) in *.
  set (e := Z.max (l - 52) (-1074)) in *.
  assert (E : 2 ^ l == inject_Z (2 ^ (l - e)) * 2 ^ e).
  { rewrite <- two_pow_Z by (subst e; lia).
    rewrite <- Qpower_plus by discriminate.
    replace (l - e + e)%Z with l by lia. reflexivity. }
  assert (A : (2 ^ (l - e) <= roundHalfEven (v / 2 ^ e))%Z).
  { apply roundHalfEven_ge. apply Qle_shift_div_l; [exact U|]. lra. }
  rewrite Zle_Qle in A.
  pose proof (two_pow_le a l L) as M.
  set (x := inject_Z (roundHalfEven _)) in *.
  set (y := inject_Z (2 ^ (l - e))) in *.
  set (u := 2 ^ e) in *. set (w := 2 ^ l) in *. set (z := 2 ^ a) in *.
  clearbody x y u w z. nra.
Qed.

(** [round64] sees the value of its argument, not the fraction that
    denotes it. *)
Lemma round64_Qeq (x y : Q) : x == y -> round64 x = round64 y.
Proof. intros H. unfold round64. now rewrite (Qred_complete _ _ H). Qed.

Lemma round64_not_NaN (x : Q) : round64 x <> NaN.
Proof.
  unfold round64. cbv zeta.
  destruct (Qle_bool (2 ^ 1024) _); [destruct (Qle_bool 0 _)|]; discriminate.
Qed.

(** A binary64 number is a multiple of its own spacing, below 2^1024. *)
Lemma isDouble_grid (g : Q) :
  isDouble g = true ->
  exists n : Z, Qred g == inject_Z n * ulp (Qred g) /\ Qabs g < 2 ^ 1024.
Proof.
  unfold isDouble, round64. cbv zeta.
  destruct (Qle_bool (2 ^ 1024) (Qabs (nearest (Qred g)))) eqn:E.
  - destruct (Qle_bool 0 (Qred g)); discriminate.
  - intros H. apply Qeq_bool_iff in H.
    assert (N : nearest (Qred g) == g).
    { transitivity (Qred (nearest (Qred g))); [symmetry; apply Qred_correct | exact H]. }
    exists (roundHalfEven (Qred g / ulp (Qred g))). split.
    + rewrite Qred_correct at 1. symmetry. exact N.
    + destruct (Qlt_le_dec (Qabs g) (2 ^ 1024)) as [L|L]; [exact L|].
      assert (L' : 2 ^ 1024 <= Qabs (nearest (Qred g))).
      { rewrite (Qabs_wd _ _ N). exact L. }
      apply Qle_bool_iff in L'. congruence.
Qed.

(** Rounding a value no larger than a binary64 number gives a finite
    number no larger than it. *)
Lemma round64_upper (v g : Q) :
  isDouble g = true -> Qabs v <= Qabs g ->
  exists r, round64 v = Fin r /\ Qabs r <= Qabs g.
Proof.
  intros Hg Hle. destruct (isDouble_grid g Hg) as (n & Hn & Hb).
  assert (Hle' : Qabs (Qred v) <= Qabs (Qred g)).
  { rewrite (Qabs_wd _ _ (Qred_correct v)), (Qabs_wd _ _ (Qred_correct g)).
    exact Hle. }
  pose proof (nearest_upper (Qred v) (Qred g) n Hn Hle') as U.
  rewrite (Qabs_wd _ _ (Qred_correct g)) in U.
  unfold round64. cbv zeta.
  destruct (Qle_bool (2 ^ 1024) (Qabs (nearest (Qred v)))) eqn:E.
  - apply Qle_bool_iff in E. lra.
  - eexists. split; [reflexivity|].
    rewrite (Qabs_wd _ _ (Qred_correct _)). exact U.
Qed.

Lemma round64_nonneg (v : Q) :
  0 <= v -> round64 v = PInf \/ exists r, round64 v = Fin r /\ 0 <= r.
Proof.
  intros H.
  assert (H' : 0 <= Qred v) by (rewrite Qred_correct; exact H).
  unfold round64. cbv zeta.
  destruct (Qle_bool (2 ^ 1024) _).
  - left. apply Qle_bool_iff in H'. now rewrite H'.
  - right. eexists. split; [reflexivity|].
    rewrite Qred_correct. now apply nearest_nonneg.
Qed.

Lemma round64_lower (a : Z) (v : Q) :
  (-1074 <= a)%Z -> 2 ^ a <= v ->
  round64 v = PInf \/ exists r, round64 v = Fin r /\ 2 ^ a <= r.
Proof.
  intros Ha H. pose proof (two_pos a) as P.
  assert (H' : 2 ^ a <= Qred v) by (rewrite Qred_correct; exact H).
  unfold round64. cbv zeta.
  destruct (Qle_bool (2 ^ 1024) _).
  - left. assert (Z : 0 <= Qred v) by lra.
    apply Qle_bool_iff in Z. now rewrite Z.
  - right. eexists. split; [reflexivity|].
    rewrite Qred_correct. now apply nearest_lower.
Qed.

Lemma isDouble_1 : isDouble 1 = true.
Proof. vm_compute. reflexivity. Qed.

(** A value between 0 and 1 rounds to a number between 0 and 1. *)
Lemma round64_unit (v : Q) :
  0 <= v <= 1 -> exists k, round64 v = Fin k /\ 0 <= k <= 1.
Proof.
  intros [H0 H1].
  destruct (round64_upper v 1 isDouble_1) as (k & E & Hk).
  { rewrite (Qabs_pos v) by exact H0. exact H1. }
  exists k. split; [exact E|].
  destruct (round64_nonneg v H0) as [F | (r & F & Hr)]; rewrite E in F.
  - discriminate.
  - injection F as ->. split; [exact Hr|].
    rewrite (Qabs_pos r) in Hk by exact Hr. exact Hk.
Qed.

(** The operations of the model and the binary64 operations of the
    Standard Library give the same numbers: on the inputs of a card whose
    exact score is -2, on ties, at the subnormal and overflow ends of the
    format, and on the infinities. *)
Example binary64_operations :
  div (ofFloat 0.22) (ofFloat 4) = ofFloat (0.22 / 4)
  /\ mul (ofFloat (0.22 / 4)) (ofFloat 2) = ofFloat (0.22 / 4 * 2)
  /\ div (ofFloat (-6.33)) (ofFloat 3) = ofFloat (-6.33 / 3)
  /\ add (ofFloat (0.22 / 4 * 2)) (ofFloat (-6.33 / 3))
     = ofFloat (0.22 / 4 * 2 + -6.33 / 3)
  /\ div (ofFloat 8) (ofFloat 3) = ofFloat (8 / 3)
  /\ add (ofFloat 0.1) (ofFloat 0.2) = ofFloat (0.1 + 0.2)
  /\ sub (ofFloat 1) (ofFloat (2 / 21)) = ofFloat (1 - 2 / 21)
  /\ mul (ofFloat 100.5) (ofFloat (2 / 21)) = ofFloat (100.5 * (2 / 21))
  /\ add (ofFloat 0x1p+53) (ofFloat 1) = ofFloat (0x1p+53 + 1)
  /\ add (ofFloat 0x1p+53) (ofFloat 3) = ofFloat (0x1p+53 + 3)
  /\ div (ofFloat 0x1p-1074) (ofFloat 2) = ofFloat (0x1p-1074 / 2)
  /\ mul (ofFloat 0x1.8p-1074) (ofFloat 0.5) = ofFloat (0x1.8p-1074 * 0.5)
  /\ div (ofFloat 0x1p-1022) (ofFloat 3) = ofFloat (0x1p-1022 / 3)
  /\ mul (ofFloat 0x1.fffffffffffffp+1023) (ofFloat 2)
     = ofFloat (0x1.fffffffffffffp+1023 * 2)
  /\ add (ofFloat 0x1.fffffffffffffp+1023) (ofFloat 0x1p+970)
     = ofFloat (0x1.fffffffffffffp+1023 + 0x1p+970)
  /\ add (ofFloat 0x1.fffffffffffffp+1023) (ofFloat 0x1p+969)
     = ofFloat (0x1.fffffffffffffp+1023 + 0x1p+969)
  /\ mul (ofFloat infinity) (ofFloat 0) = ofFloat (infinity * 0)
  /\ sub (ofFloat infinity) (ofFloat infinity) = ofFloat (infinity - infinity)
  /\ div (ofFloat 1) (ofFloat infinity) = ofFloat (1 / infinity)
  /\ div (ofFloat (-1)) (ofFloat 0) = ofFloat (-1 / 0)
  /\ div (ofFloat 0) (ofFloat 0) = ofFloat (0 / 0).
Proof. vm_compute. repeat split; reflexivity. Qed.

(** ** The card view: scores and the traffic light *)

Lemma card_defined (p : number) (c24 c7 : option number) :
  isNaN p = false ->
  Cards.card (Some {| Cards.price := Some p;
                      Cards.change24h := c24;
                      Cards.change7d := c7 |})
  = Some (Cards.deriveSignals c24 c7).
Proof. intros Hp. unfold Cards.card. cbn. now rewrite Hp. Qed.

(** C1.  For every defined (non-NaN) 24h and 7d change, the card of a priced
    coin carries trendScore = change7d / 4, momentumScore = change24h / 3 and
    rotationScore = trendScore * 2 + momentumScore, every operation being
    the binary64 one; the markets page computes the same score.  With
    change24h = 8 and change7d = 18 the trend score is 4.5, the momentum
    score is the binary64 number nearest to 8/3 and the rotation score the
    one nearest to 35/3 (2.67 and 11.67 to two decimals, and within 2^-50 of
    8/3 and 35/3), the light is Green, the label "Strong Uptrend" and the
    phase "Expansion Phase". *)
Theorem rotation_score_formula :
  (forall p c24 c7 : number,
     isNaN p = false -> isNaN c24 = false -> isNaN c7 = false ->
     exists s,
       Cards.card (Some {| Cards.price := Some p;
                           Cards.change24h := Some c24;
                           Cards.change7d := Some c7 |}) = Some s
       /\ Cards.trendScore s = div c7 4
       /\ Cards.momentumScore s = div c24 3
       /\ Cards.rotationScore s
          = add (mul (Cards.trendScore s) 2) (Cards.momentumScore s)
       /\ Chart.score
            (Chart.deriveSignals
               (Some {| Chart.price := Some p;
                        Chart.change24h := Some c24;
                        Chart.change7d := Some c7;
                        Chart.history7d := [] |}))
          = add (mul (div c7 4) 2) (div c24 3))
  /\ (let s := Cards.deriveSignals (Some (Fin 8)) (Some (Fin 18)) in
      same (Cards.trendScore s) 4.5
      /\ Cards.momentumScore s = round64 (8 # 3)
      /\ Cards.rotationScore s = round64 (35 # 3)
      /\ (exists m r : Q,
            Cards.momentumScore s = Fin m
            /\ Cards.rotationScore s = Fin r
            /\ Qabs (m - (8 # 3)) <= 2 ^ (-50)
            /\ Qabs (r - (35 # 3)) <= 2 ^ (-50)
            /\ toFixed m 2 = "2.67"
            /\ toFixed r 2 = "11.67")
      /\ Cards.label (Cards.traffic s) = "Green – Favorable rotation"
      /\ Cards.trendLabel s = "Strong Uptrend"
      /\ Cards.trendPhase s = "Expansion Phase").
Proof.
  split.
  - intros p c24 c7 Hp H24 H7. eexists. split.
    + apply card_defined. exact Hp.
    + unfold Cards.deriveSignals, Chart.deriveSignals.
      cbn [Cards.trendScore Cards.momentumScore Cards.rotationScore Chart.score
           Chart.change24h Chart.change7d].
      unfold Cards.getTrendScore, Cards.getMomentumScore,
        Chart.getTrendScore, Chart.getMomentumScore.
      rewrite H24, H7. repeat split; reflexivity.
  - cbv zeta. split; [vm_compute; reflexivity|].
    split; [vm_compute; reflexivity|].
    split; [vm_compute; reflexivity|].
    split.
    + eexists. eexists.
      split; [vm_compute; reflexivity|].
      split; [vm_compute; reflexivity|].
      split; [vm_compute; discriminate|].
      split; [vm_compute; discriminate|].
      split; vm_compute; reflexivity.
    + repeat split; vm_compute; reflexivity.
Qed.

(** Rounding shows in the score.  For change24h = -6.33 and change7d = 0.22
    (the binary64 numbers these decimals denote) the exact value of
    change7d / 4 * 2 + change24h / 3 would be -2; the pages compute
    -1.9999999999999998, the largest binary64 number below -2, as the Standard
    Library's operations do, and show the Yellow light, not the Red one. *)
Example rotation_score_is_rounded :
  let c24 := ofFloat (-6.33) in
  let c7 := ofFloat 0.22 in
  let s := Cards.deriveSignals (Some c24) (Some c7) in
  let e := Some {| Chart.price := Some (Fin 100); Chart.change24h := Some c24;
                   Chart.change7d := Some c7; Chart.history7d := [] |} in
  Cards.rotationScore s = ofFloat (0.22 / 4 * 2 + -6.33 / 3)
  /\ Cards.rotationScore s = Fin (-9007199254740991 # 4503599627370496)
  /\ Cards.label (Cards.traffic s) = "Yellow – Neutral / wait"
  /\ Chart.score (Chart.deriveSignals e) = Cards.rotationScore s
  /\ Chart.label (Chart.light (Chart.deriveSignals e)) = "Yellow – Neutral / wait"
  /\ Cards.label (Cards.getTrafficLight (Fin (-2))) = "Red – High risk / fading".
Proof. vm_compute. repeat split; reflexivity. Qed.

(** C5.  The traffic light splits the scores into three classes that cover
    every score and do not overlap: Green exactly for score >= 6, Red exactly
    for score <= -2, Yellow exactly for the scores strictly between (and for
    NaN, which passes neither test); the three labels are distinct, so each
    score carries exactly one of them.  Of the infinities, the positive one
    is Green and the negative one Red.  Both card pages agree. *)
Theorem traffic_light_partition :
  (forall q : Q,
     let l := Cards.label (Cards.getTrafficLight (Fin q)) in
     (6 <= q <-> l = "Green – Favorable rotation")
     /\ (q <= -2 <-> l = "Red – High risk / fading")
     /\ (-2 < q < 6 <-> l = "Yellow – Neutral / wait")
     /\ (6 <= q \/ q <= -2 \/ -2 < q < 6)
     /\ ~ (6 <= q /\ q <= -2))
  /\ (forall q : Q,
     let l := Chart.label (Chart.getTrafficLight (Fin q)) in
     (6 <= q <-> l = "Green – Favorable rotation")
     /\ (q <= -2 <-> l = "Red – High risk")
     /\ (-2 < q < 6 <-> l = "Yellow – Neutral / wait"))
  /\ Cards.label (Cards.getTrafficLight NaN) = "Yellow – Neutral / wait"
  /\ Chart.label (Chart.getTrafficLight NaN) = "Yellow – Neutral / wait"
  /\ Cards.label (Cards.getTrafficLight PInf) = "Green – Favorable rotation"
  /\ Chart.label (Chart.getTrafficLight PInf) = "Green – Favorable rotation"
  /\ Cards.label (Cards.getTrafficLight NInf) = "Red – High risk / fading"
  /\ Chart.label (Chart.getTrafficLight NInf) = "Red – High risk".
Proof.
  split; [|split; [|repeat split; reflexivity]].
  - intros q. unfold Cards.getTrafficLight. compare_all; cbn;
      repeat split; intros; try reflexivity; try discriminate; try lra.
  - intros q. unfold Chart.getTrafficLight. compare_all; cbn;
      repeat split; intros; try reflexivity; try discriminate; try lra.
Qed.

(** ** Sentiment *)

(** C3, as stated, fails: for a missing or NaN change the card pages answer
    "Neutral", the label of the middle band, and not "Unknown". *)
Lemma sentiment_missing_is_not_unknown :
  Cards.getSentiment None = "Neutral"
  /\ Cards.getSentiment (Some NaN) = "Neutral"
  /\ Chart.getSentiment None = "Neutral"
  /\ Chart.getSentiment (Some NaN) = "Neutral"
  /\ Cards.getSentiment None <> "Unknown"
  /\ Cards.getSentiment (Some NaN) <> "Unknown".
Proof. cbn. repeat split; discriminate. Qed.

(** The sector view is the one page whose sentiment answers "Unknown". *)
Example sector_sentiment_unknown :
  Sectors.label (Sectors.getSentiment None) = "Unknown"
  /\ Sectors.label (Sectors.getSentiment (Some NaN)) = "Unknown"
  /\ Sectors.label (Sectors.getSentiment (Some (Fin 3))) = "Light Green".
Proof. repeat split. Qed.

(** C3, amended.  [getSentiment] answers "Neutral" for a missing (null) or NaN
    change; for a numeric change c it answers "Strong Bullish" exactly when
    c > 3, "Bullish" exactly when 0.5 < c <= 3, "Strong Bearish" exactly when
    c < -3, "Bearish" exactly when -3 <= c < -0.5 and "Neutral" exactly when
    -0.5 <= c <= 0.5; so c = 3 is "Bullish".  The infinities fall in the
    outer bands.  Both card pages agree. *)
Theorem sentiment_table :
  Cards.getSentiment None = "Neutral"
  /\ Cards.getSentiment (Some NaN) = "Neutral"
  /\ (forall c : Q,
        let s := Cards.getSentiment (Some (Fin c)) in
        (3 < c <-> s = "Strong Bullish")
        /\ (0.5 < c <= 3 <-> s = "Bullish")
        /\ (c < -3 <-> s = "Strong Bearish")
        /\ (-3 <= c < -0.5 <-> s = "Bearish")
        /\ (-0.5 <= c <= 0.5 <-> s = "Neutral"))
  /\ Cards.getSentiment (Some (Fin 3)) = "Bullish"
  /\ Chart.getSentiment = Cards.getSentiment
  /\ Cards.getSentiment (Some PInf) = "Strong Bullish"
  /\ Cards.getSentiment (Some NInf) = "Strong Bearish".
Proof.
  split; [reflexivity|]. split; [reflexivity|].
  split; [|repeat split; reflexivity].
  intros c. unfold Cards.getSentiment. cbn [isNaN]. compare_all; cbn;
    repeat split; intros; try reflexivity; try discriminate; try lra.
Qed.

(** ** Trend score from the EMA structure *)

(** The bearish stack is reachable for a positive price. *)
Example getTrendScore_bearish_stack :
  Sectors.getTrendScore (Some (Fin 0.5))
    (Some {| Sectors.ema20 := 1; Sectors.ema50 := 2;
             Sectors.change7d := None; Sectors.spark := [] |}) = -2.
Proof. reflexivity. Qed.

(** C10.  Whatever the two (defined) EMAs are, [getTrendScore] answers 0 when
    the price is null, NaN or zero: a zero price takes the unknown branch, so
    the answer there is never the -2 of the bearish stack. *)
Theorem trend_score_falsy_price :
  forall (price : option number) (e20 e50 : Q)
         (c7 : option number) (spark : list number),
    price = None \/ price = Some NaN
    \/ (exists q, price = Some (Fin q) /\ q == 0) ->
    let trend := {| Sectors.ema20 := e20; Sectors.ema50 := e50;
                    Sectors.change7d := c7; Sectors.spark := spark |} in
    Sectors.getTrendScore price (Some trend) = 0
    /\ ~ Sectors.getTrendScore price (Some trend) == -2.
Proof.
  intros price e20 e50 c7 spark H trend.
  assert (E : Sectors.getTrendScore price (Some trend) = 0).
  { destruct H as [-> | [-> | (q & -> & Hq)]]; try reflexivity.
    unfold Sectors.getTrendScore, truthy.
    apply Qeq_bool_iff in Hq. now rewrite Hq. }
  split; [exact E|]. rewrite E. discriminate.
Qed.

Lemma trend_score_falsy_price_witness :
  Sectors.getTrendScore (Some (Fin 0))
    (Some {| Sectors.ema20 := 1; Sectors.ema50 := 2;
             Sectors.change7d := None; Sectors.spark := [] |}) = 0
  /\ ~ Sectors.getTrendScore (Some (Fin 0))
         (Some {| Sectors.ema20 := 1; Sectors.ema50 := 2;
                  Sectors.change7d := None; Sectors.spark := [] |}) == -2.
Proof.
  apply (trend_score_falsy_price (Some (Fin 0)) 1 2 None []).
  right. right. exists 0. split; reflexivity.
Defined.

(** ** The exponential moving average *)

Section EMA.

Import Sectors.

Lemma sample_middle (pre rest : list number) (p : number) :
  sample (pre ++ p :: rest) (List.length pre) = p.
Proof.
  unfold sample. rewrite nth_error_app2 by lia.
  now rewrite Nat.sub_diag.
Qed.

(** The index loop visits the samples after [pre] one by one. *)
Lemma forLoop_fold (k : number) (rest : list number) :
  forall (pre : list number) (ema : number),
    forLoop (List.length rest) (List.length pre)
      (fun i e => add (mul (sample (pre ++ rest) i) k) (mul e (sub 1 k))) ema
    = fold_left (Spec.emaStep k) rest ema.
Proof.
  induction rest as [|p rest IH]; intros pre ema.
  - reflexivity.
  - cbn [List.length forLoop fold_left].
    rewrite sample_middle.
    specialize (IH (pre ++ [p])%list (Spec.emaStep k ema p)).
    rewrite <- app_assoc in IH. cbn [app] in IH.
    rewrite length_app in IH. cbn [List.length] in IH.
    replace (List.length pre + 1)%nat with (Datatypes.S (List.length pre)) in IH by lia.
    exact IH.
Qed.

Lemma calculateEMA_short (series : list number) (period : nat) :
  (List.length series < period)%nat ->
  calculateEMA series period = JNumber NaN.
Proof.
  intros H. unfold calculateEMA.
  apply Nat.ltb_lt in H. now rewrite H.
Qed.

Lemma calculateEMA_long (first : number) (rest : list number) (period : nat) :
  (period <= List.length (first :: rest))%nat ->
  calculateEMA (first :: rest) period = JNumber (Spec.emaFold period first rest).
Proof.
  intros H. unfold calculateEMA.
  apply Nat.ltb_ge in H. rewrite H.
  cbn [List.length]. rewrite Nat.sub_succ, Nat.sub_0_r.
  f_equal. exact (forLoop_fold (Spec.smoothing period) rest [first] first).
Qed.

(** The smoothing factor of a period of at least 1 lies between 0 and 1. *)
Lemma smoothing_range (period : nat) :
  (1 <= period)%nat ->
  exists k : Q, Spec.smoothing period = Fin k /\ 0 <= k <= 1.
Proof.
  intros Hp. unfold Spec.smoothing, ofNat.
  assert (H1 : 2 ^ 0 <= inject_Z (Z.of_nat period)).
  { change (2 ^ 0) with (inject_Z 1). rewrite <- Zle_Qle. lia. }
  destruct (round64_lower 0 _ ltac:(lia) H1) as [-> | (r & -> & Hr)].
  - exists 0. split; [reflexivity | lra].
  - change (2 ^ 0) with 1 in Hr. cbn [add].
    assert (H2 : 2 ^ 1 <= r + 1) by (change (2 ^ 1) with 2; lra).
    destruct (round64_lower 1 _ ltac:(lia) H2) as [-> | (d & -> & Hd)].
    + exists 0. split; [reflexivity | lra].
    + change (2 ^ 1) with 2 in Hd. cbn [div].
      assert (Nz : Qeq_bool d 0 = false).
      { destruct (Qeq_bool d 0) eqn:E; [|reflexivity].
        apply Qeq_bool_iff in E. lra. }
      rewrite Nz. apply round64_unit.
      split.
      * apply Qle_shift_div_l; lra.
      * apply Qle_shift_div_r; lra.
Qed.

Lemma complement_range (k : Q) :
  0 <= k <= 1 -> exists j : Q, sub 1 (Fin k) = Fin j /\ 0 <= j <= 1.
Proof.
  intros H. unfold sub. cbn [neg add]. apply round64_unit. lra.
Qed.

(** One step on a finite sample keeps the running value a number; when the
    weight of the running value is zero, it keeps it finite. *)
Lemma emaStep_known (k j : Q) (e p : number) :
  0 <= k <= 1 -> 0 <= j -> sub 1 (Fin k) = Fin j ->
  Spec.finite p ->
  e <> NaN /\ (j == 0 -> exists q, e = Fin q) ->
  Spec.emaStep (Fin k) e p <> NaN
  /\ (j == 0 -> exists q, Spec.emaStep (Fin k) e p = Fin q).
Proof.
  intros Hk Hj Ej Hp [He Hz].
  destruct p as [| | |q]; try contradiction. cbn in Hp.
  unfold Spec.emaStep. rewrite Ej.
  change (mul (Fin q) (Fin k)) with (round64 (q * k)).
  destruct (round64_upper (q * k) q Hp) as (x & -> & Hx).
  { rewrite Qabs_Qmult. rewrite (Qabs_pos k) by lra.
    pose proof (Qabs_nonneg q). nra. }
  destruct (Qeq_dec j 0) as [J0|J0].
  - destruct (Hz J0) as (e' & ->). cbn [mul].
    rewrite (round64_Qeq (e' * j) 0) by (rewrite J0; ring).
    change (round64 0) with (Fin 0). cbn [add].
    destruct (round64_upper (x + 0) q Hp) as (y & -> & _).
    { rewrite (Qabs_wd (x + 0) x) by ring. exact Hx. }
    split; [discriminate | intros _; now exists y].
  - assert (Nz : Qeq_bool j 0 = false).
    { destruct (Qeq_bool j 0) eqn:E; [|reflexivity].
      apply Qeq_bool_iff in E. contradiction. }
    assert (Pj : Qle_bool 0 j = true) by now apply Qle_bool_iff.
    split; [|intros J; contradiction].
    destruct e as [| | |e']; [congruence| | |]; cbn [mul]; rewrite ?Nz, ?Pj;
      cbn [inf negb add]; try discriminate.
    destruct (round64 (e' * j)) eqn:E; cbn [add]; try discriminate.
    + now apply round64_not_NaN in E.
    + apply round64_not_NaN.
Qed.

Lemma emaFold_known (k j : Q) (rest : list number) :
  0 <= k <= 1 -> 0 <= j -> sub 1 (Fin k) = Fin j ->
  Forall Spec.finite rest ->
  forall e,
    e <> NaN /\ (j == 0 -> exists q, e = Fin q) ->
    fold_left (Spec.emaStep (Fin k)) rest e <> NaN.
Proof.
  intros Hk Hj Ej. induction rest as [|p rest IH]; intros Hr e He.
  - apply He.
  - inversion Hr; subst. cbn [fold_left]. apply IH; [assumption|].
    now apply (emaStep_known k j).
Qed.

(** A long enough series of finite samples never gives NaN. *)
Lemma emaFold_defined (period : nat) (first : number) (rest : list number) :
  (1 <= period)%nat ->
  Spec.finite first -> Forall Spec.finite rest ->
  Spec.emaFold period first rest <> NaN.
Proof.
  intros Hp Hf Hr. unfold Spec.emaFold.
  destruct (smoothing_range period Hp) as (k & -> & Hk).
  destruct (complement_range k Hk) as (j & Ej & Hj).
  apply (emaFold_known k j); try assumption; [lra|].
  destruct first as [| | |q]; try contradiction.
  split; [discriminate | intros _; now exists q].
Qed.

Lemma last_default {A : Type} (l : list A) (a d d' : A) :
  last (a :: l) d = last (a :: l) d'.
Proof.
  revert a. induction l as [|b l IH]; intro a; [reflexivity|].
  change (last (b :: l) d = last (b :: l) d'). apply IH.
Qed.

Lemma last_cons {A : Type} (l : list A) (a b d : A) :
  last (a :: b :: l) d = last (b :: l) d.
Proof. reflexivity. Qed.

Lemma smoothing_one : Spec.smoothing 1 = Fin 1.
Proof. vm_compute. reflexivity. Qed.

(** With k = 1 a step returns its sample. *)
Lemma emaStep_one (e q : Q) :
  isDouble q = true ->
  exists r, Spec.emaStep (Fin 1) (Fin e) (Fin q) = Fin r /\ r == q.
Proof.
  intros Hq. unfold Spec.emaStep.
  assert (E0 : sub 1 (Fin 1) = Fin 0) by (vm_compute; reflexivity).
  rewrite E0. cbn [mul].
  rewrite (round64_Qeq (e * 0) 0) by ring.
  change (round64 0) with (Fin 0).
  rewrite (round64_Qeq (q * 1) q) by ring.
  unfold isDouble in Hq. destruct (round64 q) as [| | |r] eqn:E; try discriminate.
  apply Qeq_bool_iff in Hq. cbn [add].
  rewrite (round64_Qeq (r + 0) q) by (rewrite Hq; ring).
  rewrite E. now exists r.
Qed.

Lemma emaFold_period_one (rest : list number) :
  Forall Spec.finite rest ->
  forall e : Q,
    same (fold_left (Spec.emaStep (Fin 1)) rest (Fin e)) (last rest (Fin e)).
Proof.
  induction rest as [|p rest IH]; intros Hr e.
  - cbn. reflexivity.
  - inversion Hr as [|? ? Hp Hrest]; subst. cbn [fold_left].
    destruct p as [| | |q]; try contradiction. cbn in Hp.
    destruct (emaStep_one e q Hp) as (r & -> & Er).
    specialize (IH Hrest r).
    destruct rest as [|p' rest].
    + cbn. exact Er.
    + rewrite last_cons.
      rewrite (last_default rest p' _ (Fin r)). exact IH.
Qed.

End EMA.

(** C4, as stated, fails on both sides of its equivalence: a sample that is
    NaN or an infinity makes the result unknown although the series is long
    enough (and for period 1 the result is then not the last sample); and
    the empty series with period 0 gives [undefined]. *)
Lemma ema_unknown_with_enough_samples :
  Sectors.calculateEMA [NaN; Fin 5] 1 = JNumber NaN
  /\ ~ (List.length [NaN; Fin 5] < 1)%nat
  /\ last [NaN; Fin 5] NaN = Fin 5
  /\ Sectors.calculateEMA [PInf; Fin 5] 1 = JNumber NaN
  /\ Sectors.calculateEMA [PInf; NInf] 2 = JNumber NaN
  /\ Sectors.calculateEMA [ofFloat infinity; ofFloat 5] 1
     = JNumber (ofFloat (5 * (2 / (1 + 1)) + infinity * (1 - 2 / (1 + 1))))
  /\ Sectors.calculateEMA [] 0 = JUndefined
  /\ ~ (List.length (@nil number) < 0)%nat.
Proof.
  split; [vm_compute; reflexivity|]. split; [cbn; lia|].
  split; [reflexivity|]. split; [vm_compute; reflexivity|].
  split; [vm_compute; reflexivity|]. split; [vm_compute; reflexivity|].
  split; [reflexivity | cbn; lia].
Qed.

(** C4, amended.  For a period of at least 1: a series shorter than the period
    gives the unknown (NaN); otherwise the result is the fold seeded with the
    first sample that applies ema = sample * k + ema * (1 - k), k = 2 /
    (period + 1), in binary64 arithmetic to every later sample.  When every
    sample is a finite number (neither NaN nor an infinity) the result is
    unknown if and only if the series is shorter than the period, and for
    period 1 and a non-empty series it is the last sample. *)
Theorem ema_fold_and_unknown :
  forall (series : list number) (period : nat),
    (1 <= period)%nat ->
    ((List.length series < period)%nat ->
       Sectors.calculateEMA series period = JNumber NaN)
    /\ ((period <= List.length series)%nat ->
          exists first rest,
            series = first :: rest
            /\ Sectors.calculateEMA series period
               = JNumber (Spec.emaFold period first rest))
    /\ (Forall Spec.finite series ->
          (Spec.isUnknown (Sectors.calculateEMA series period) = true
           <-> (List.length series < period)%nat))
    /\ (Forall Spec.finite series -> period = 1%nat -> series <> [] ->
          exists e,
            Sectors.calculateEMA series period = JNumber e
            /\ same e (last series NaN)).
Proof.
  intros series period Hp.
  assert (Hlong : (period <= List.length series)%nat ->
            exists first rest,
              series = first :: rest
              /\ Sectors.calculateEMA series period
                 = JNumber (Spec.emaFold period first rest)).
  { intros H. destruct series as [|first rest]; [cbn in H; lia|].
    exists first, rest. split; [reflexivity|].
    now apply calculateEMA_long. }
  split; [apply calculateEMA_short|]. split; [exact Hlong|]. split.
  - intros Hfin. split.
    + intros Hu. destruct (Nat.lt_ge_cases (List.length series) period) as [H|H];
        [exact H|].
      destruct (Hlong H) as (first & rest & -> & E). rewrite E in Hu.
      inversion Hfin; subst.
      assert (D : Spec.emaFold period first rest <> NaN)
        by now apply emaFold_defined.
      cbn [Spec.isUnknown] in Hu.
      destruct (Spec.emaFold period first rest); [congruence | | |];
        discriminate Hu.
    + intros H. now rewrite calculateEMA_short.
  - intros Hfin -> Hne.
    destruct series as [|first rest]; [congruence|].
    exists (Spec.emaFold 1 first rest). split.
    + apply calculateEMA_long. cbn. lia.
    + inversion Hfin as [|? ? Hf Hrest]; subst.
      destruct first as [| | |q]; try contradiction.
      unfold Spec.emaFold. rewrite smoothing_one.
      replace (last (Fin q :: rest) NaN) with (last rest (Fin q)).
      * now apply emaFold_period_one.
      * destruct rest as [|r rest]; [reflexivity|].
        rewrite last_cons. apply last_default.
Qed.

Lemma ema_fold_and_unknown_witness :
  exists e,
    Sectors.calculateEMA [Fin 10; Fin 11.5; Fin 12.25] 1 = JNumber e
    /\ same e (Fin 12.25).
Proof.
  destruct (ema_fold_and_unknown [Fin 10; Fin 11.5; Fin 12.25] 1 (le_n 1))
    as (_ & _ & _ & H).
  apply H.
  - repeat constructor.
  - reflexivity.
  - discriminate.
Defined.

(** ** Missing provider fields *)





(** The markets page, where both keys of a change are JSON null: the stored
    change is 0. *)
Example chart_null_change_is_zero :
  Chart.change24h
    (Chart.buildEntry
       {| Chart.id := Some "bitcoin";
          Chart.current_price := JNumber 100;
          Chart.price_change_percentage_24h_in_currency := JNull;
          Chart.price_change_percentage_24h := JNull;
          Chart.price_change_percentage_7d_in_currency := JNull;
          Chart.price_change_percentage_7d := JUndefined;
          Chart.sparkline := None |}) = Some (Fin 0).
Proof. reflexivity. Qed.



(** ** The stable descending sort *)

Section SortDescending.

Context {A : Type} (key : A -> Q).

Lemma insert_first (x y : A) (l : list A) :
  key y <= key x -> insert (fun a b : A => key b - key a) x (y :: l) = x :: y :: l.
Proof.
  intros H. cbn. destruct (Qle_bool_cases (key y - key x) 0) as [[-> _] | [_ Hc]];
    [reflexivity|]. cbv beta in Hc. lra.
Qed.

Lemma insert_later (x y : A) (l : list A) :
  key x < key y -> insert (fun a b : A => key b - key a) x (y :: l) = y :: insert (fun a b : A => key b - key a) x l.
Proof.
  intros H. cbn. destruct (Qle_bool_cases (key y - key x) 0) as [[_ Hc] | [-> _]];
    [|reflexivity]. cbv beta in Hc. lra.
Qed.

Lemma insert_perm (x : A) (l : list A) : Permutation (insert (fun a b : A => key b - key a) x l) (x :: l).
Proof.
  induction l as [|y l IH]; [reflexivity|].
  destruct (Qlt_le_dec (key x) (key y)) as [H|H].
  - rewrite insert_later by exact H.
    rewrite IH. apply perm_swap.
  - now rewrite insert_first.
Qed.

Lemma sort_perm (l : list A) : Permutation (sort (fun a b : A => key b - key a) l) l.
Proof.
  induction l as [|x l IH]; [reflexivity|].
  cbn [sort]. rewrite insert_perm. now constructor.
Qed.

Lemma insert_sorted (x : A) (l : list A) :
  StronglySorted (fun a b => key b <= key a) l ->
  StronglySorted (fun a b => key b <= key a) (insert (fun a b : A => key b - key a) x l).
Proof.
  induction l as [|y l IH]; intros Hs.
  - repeat constructor.
  - inversion Hs as [|? ? Hl Hy]; subst.
    destruct (Qlt_le_dec (key x) (key y)) as [H|H].
    + rewrite insert_later by exact H.
      constructor; [now apply IH|].
      apply (Permutation_Forall (Permutation_sym (insert_perm x l))).
      constructor; [lra | exact Hy].
    + rewrite insert_first by exact H.
      constructor; [exact Hs|].
      constructor; [exact H|].
      eapply Forall_impl; [|exact Hy]. intros a Ha. cbn in Ha. lra.
Qed.

Lemma sort_sorted (l : list A) :
  StronglySorted (fun a b => key b <= key a) (sort (fun a b : A => key b - key a) l).
Proof.
  induction l as [|x l IH]; [constructor|].
  cbn [sort]. now apply insert_sorted.
Qed.

(** Stability: the elements of one key keep their input order. *)
Lemma insert_stable (q : Q) (x : A) (l : list A) :
  filter (fun a => Qeq_bool (key a) q) (insert (fun a b : A => key b - key a) x l)
  = filter (fun a => Qeq_bool (key a) q) (x :: l).
Proof.
  induction l as [|y l IH]; [reflexivity|].
  destruct (Qlt_le_dec (key x) (key y)) as [H|H].
  - rewrite insert_later by exact H.
    cbn [filter] in *. rewrite IH.
    destruct (Qeq_bool (key x) q) eqn:Ex; [|reflexivity].
    destruct (Qeq_bool (key y) q) eqn:Ey; [|reflexivity].
    apply Qeq_bool_iff in Ex, Ey. lra.
  - now rewrite insert_first.
Qed.

Lemma sort_stable (q : Q) (l : list A) :
  filter (fun a => Qeq_bool (key a) q) (sort (fun a b : A => key b - key a) l)
  = filter (fun a => Qeq_bool (key a) q) l.
Proof.
  induction l as [|x l IH]; [reflexivity|].
  cbn [sort]. rewrite insert_stable. cbn [filter]. now rewrite IH.
Qed.

End SortDescending.

(** ** The rotation leaderboard *)

Lemma filter_map_comm {A B : Type} (f : A -> B) (p : B -> bool) (l : list A) :
  filter p (map f l) = map f (filter (fun a => p (f a)) l).
Proof.
  induction l as [|a l IH]; [reflexivity|].
  cbn. destruct (p (f a)); cbn; now rewrite IH.
Qed.

(** C8.  Once the market data is loaded, the leaderboard holds exactly the
    visible coins, each with its rotation score, in descending order of
    score; and the sort is stable: the coins of any one score appear in the
    order they have in the (filtered) coin list. *)
Theorem leaderboard_sorted_stable :
  forall (COINS : list Sectors.Coin) (st : Sectors.State)
         (market : string -> option Sectors.MarketData),
    Sectors.marketData st = Some market ->
    let board := Sectors.rotationList COINS st in
    let visible := Sectors.visibleCoins COINS (Sectors.sectorFilter st) in
    StronglySorted (fun a b => Sectors.score b <= Sectors.score a) board
    /\ Permutation (map Sectors.coin board) visible
    /\ (forall it, In it board ->
          Sectors.score it = Spec.rotationScore st (Sectors.coin it))
    /\ (forall q,
          map Sectors.coin (Spec.withScore q board)
          = filter (fun c => Qeq_bool (Spec.rotationScore st c) q) visible).
Proof.
  intros COINS st market Hm. cbv zeta.
  set (visible := Sectors.visibleCoins COINS (Sectors.sectorFilter st)).
  set (mk := fun c => {| Sectors.coin := c; Sectors.score := Spec.rotationScore st c |}).
  assert (Eb : Sectors.rotationList COINS st
               = sort Sectors.byScoreDesc (map mk visible)).
  { unfold Sectors.rotationList. rewrite Hm. fold visible. f_equal.
    apply map_ext. intros c. unfold mk, Spec.rotationScore. rewrite Hm.
    reflexivity. }
  rewrite Eb.
  pose proof (sort_perm Sectors.score (map mk visible)) as Hperm.
  repeat split.
  - apply (sort_sorted Sectors.score).
  - rewrite (Permutation_map Sectors.coin Hperm).
    rewrite map_map. cbn. now rewrite map_id.
  - intros it Hin.
    apply (Permutation_in _ Hperm) in Hin.
    apply in_map_iff in Hin as (c & <- & _). reflexivity.
  - intros q. unfold Spec.withScore, Sectors.byScoreDesc.
    rewrite (sort_stable Sectors.score q (map mk visible)).
    rewrite filter_map_comm, map_map. cbn. now rewrite map_id.
Qed.

Lemma leaderboard_sorted_stable_witness :
  let market := fun id =>
    Some {| Sectors.price := Some (Fin 100);
            Sectors.change24h :=
              if String.eqb id "bitcoin" then Some (Fin 8)
              else if String.eqb id "chainlink" then Some (Fin (-1))
              else Some (Fin 4) |} in
  let st := {| Sectors.marketData := Some market;
               Sectors.trendData := None;
               Sectors.sectorFilter := None |} in
  map Sectors.symbol
    (map Sectors.coin (Spec.withScore 2 (Sectors.rotationList Sectors.COINS st)))
  = ["ETH"; "SOL"; "AVAX"].
Proof.
  intros market st.
  rewrite (proj2 (proj2 (proj2
             (leaderboard_sorted_stable Sectors.COINS st market eq_refl)))).
  reflexivity.
Defined.

(** ** Sector statistics *)

Section SectorFacts.

Import Sectors.

Lemma fold_push (items : list RotationItem) :
  forall m : SectorMap,
    let m' := fold_left (fun m item => push m (sector (coin item)) (score item))
                        items m in
    macro m' = (macro m ++ map score (Spec.members items Macro))%list
    /\ l1 m' = (l1 m ++ map score (Spec.members items L1))%list
    /\ oracle m' = (oracle m ++ map score (Spec.members items Oracle))%list.
Proof.
  induction items as [|it items IH]; intros m.
  - cbn. now rewrite !app_nil_r.
  - cbn [fold_left]. cbv zeta in *.
    destruct (IH (push m (sector (coin it)) (score it))) as (E1 & E2 & E3).
    rewrite E1, E2, E3. unfold Spec.members. cbn [filter].
    destruct (sector (coin it)); cbn; rewrite <- ?app_assoc; repeat split;
      reflexivity.
Qed.

Lemma fold_left_total (arr : list Q) :
  forall acc, fold_left Qplus arr acc == acc + Spec.total arr.
Proof.
  induction arr as [|x arr IH]; intros acc; cbn.
  - ring.
  - rewrite IH. ring.
Qed.

Lemma average_mean (items : list RotationItem) (s : Sector) :
  average (map score (Spec.members items s)) == Spec.mean items s.
Proof.
  unfold average, Spec.mean. rewrite fold_left_total, length_map.
  now rewrite Qplus_0_l.
Qed.

(** The stats before ranking, in the order of the object's keys. *)
Lemma sectorStats_unsorted (items : list RotationItem) :
  exists unsorted : list SectorStat,
    sectorStats items = sort byAvgDesc unsorted
    /\ map stat_sector unsorted = Spec.populated items
    /\ Forall (fun s => avg s == Spec.mean items (stat_sector s)) unsorted.
Proof.
  unfold sectorStats.
  destruct (fold_push items emptySectorMap) as (E1 & E2 & E3).
  cbn [emptySectorMap macro l1 oracle app] in E1, E2, E3.
  eexists. split; [reflexivity|].
  unfold entries. rewrite E1, E2, E3.
  pose proof (average_mean items Macro) as A1.
  pose proof (average_mean items L1) as A2.
  pose proof (average_mean items Oracle) as A3.
  unfold Spec.populated. cbn [filter map fst snd].
  rewrite !length_map.
  destruct (Spec.members items Macro), (Spec.members items L1),
    (Spec.members items Oracle); cbn [List.length Nat.ltb Nat.leb map fst snd];
    (split; [reflexivity|]); repeat constructor; cbn [avg stat_sector];
    assumption.
Qed.

(** The ranking: the populated sectors with their means, best first. *)
Lemma sectorStats_ranking (items : list RotationItem) :
  Permutation (map stat_sector (sectorStats items)) (Spec.populated items)
  /\ Forall (fun s => avg s == Spec.mean items (stat_sector s)) (sectorStats items)
  /\ StronglySorted (fun a b => avg b <= avg a) (sectorStats items).
Proof.
  destruct (sectorStats_unsorted items) as (u & -> & Hs & Hm).
  pose proof (sort_perm avg u) as Hp.
  repeat split.
  - rewrite <- Hs. now apply Permutation_map.
  - now apply (Permutation_Forall (Permutation_sym Hp)).
  - apply (sort_sorted avg).
Qed.

(** The strongest and the weakest coin. *)
Lemma fold_strongest (rest : list RotationItem) :
  forall best,
    let m := fold_left
               (fun best cur =>
                  if negb (Qle_bool (score cur) (score best)) then cur else best)
               rest best in
    In m (best :: rest)
    /\ score best <= score m
    /\ Forall (fun it => score it <= score m) rest.
Proof.
  induction rest as [|x rest IH]; intros best; cbv zeta.
  - cbn. repeat split; [now left | lra | constructor].
  - cbn [fold_left].
    destruct (Qle_bool_cases (score x) (score best)) as [[-> H] | [-> H]];
      cbn [negb].
    + destruct (IH best) as (Hin & Hle & Hall). repeat split.
      * destruct Hin as [<- | Hin]; [now left | right; now right].
      * exact Hle.
      * constructor; [lra | exact Hall].
    + destruct (IH x) as (Hin & Hle & Hall). repeat split.
      * now right.
      * lra.
      * constructor; [exact Hle | exact Hall].
Qed.

Lemma fold_weakest (rest : list RotationItem) :
  forall worst,
    let m := fold_left
               (fun worst cur =>
                  if negb (Qle_bool (score worst) (score cur)) then cur else worst)
               rest worst in
    In m (worst :: rest)
    /\ score m <= score worst
    /\ Forall (fun it => score m <= score it) rest.
Proof.
  induction rest as [|x rest IH]; intros worst; cbv zeta.
  - cbn. repeat split; [now left | lra | constructor].
  - cbn [fold_left].
    destruct (Qle_bool_cases (score worst) (score x)) as [[-> H] | [-> H]];
      cbn [negb].
    + destruct (IH worst) as (Hin & Hle & Hall). repeat split.
      * destruct Hin as [<- | Hin]; [now left | right; now right].
      * exact Hle.
      * constructor; [lra | exact Hall].
    + destruct (IH x) as (Hin & Hle & Hall). repeat split.
      * now right.
      * lra.
      * constructor; [exact Hle | exact Hall].
Qed.

Lemma at_last {A : Type} (a : A) (l : list A) :
  at_ (a :: l) (List.length (a :: l) - 1) = Ok (last (a :: l) a).
Proof.
  unfold at_. cbn [List.length]. rewrite Nat.sub_succ, Nat.sub_0_r.
  revert a. induction l as [|b l IH]; intro a; [reflexivity|].
  cbn [List.length nth_error]. rewrite IH.
  rewrite last_cons. f_equal. apply last_default.
Qed.

End SectorFacts.

(** ** The signal emitter *)

Section SignalFacts.

Import Sectors.

(** The messages pushed for a non-empty coin set. *)
Lemma signalEvents_cons (first : RotationItem) (others : list RotationItem) :
  exists strongest weakest sectorSignals,
    signalEvents (first :: others)
    = Ok (sectorSignals
          ++ (if Qle_bool 6 (score strongest) then [Acceleration strongest] else [])
          ++ (if Qle_bool (score weakest) (-6) then [Capitulation weakest] else []))%list
    /\ In strongest (first :: others)
    /\ Forall (fun it => score it <= score strongest) (first :: others)
    /\ In weakest (first :: others)
    /\ Forall (fun it => score weakest <= score it) (first :: others)
    /\ match sectorStats (first :: others) with
       | leader :: second :: more =>
           sectorSignals
           = ((if Qle_bool 3 (avg leader) && Qle_bool 1.5 (avg leader - avg second)
               then [Leading leader second] else [])
              ++ (if Qle_bool (avg (last (second :: more) leader)) (-2)
                  then [Abandoned (last (second :: more) leader)] else []))%list
       | _ => sectorSignals = []
       end.
Proof.
  destruct (fold_strongest others first) as (S1 & S2 & S3).
  destruct (fold_weakest others first) as (W1 & W2 & W3).
  cbv zeta in *.
  unfold signalEvents. cbn [List.length Nat.ltb Nat.leb reduce1].
  destruct (sectorStats (first :: others)) as [|leader [|second more]] eqn:E.
  - do 2 eexists. exists []. cbn [bind List.length Nat.leb app].
    repeat split; try eassumption; constructor; assumption.
  - do 2 eexists. exists []. cbn [bind List.length Nat.leb app].
    repeat split; try eassumption; constructor; assumption.
  - do 3 eexists.
    rewrite at_last.
    cbn [List.length Nat.leb at_ nth_error bind].
    rewrite last_cons.
    repeat split; try eassumption; try (constructor; assumption).
Qed.



Lemma signalEvents_total (items : list RotationItem) :
  exists events, signalEvents items = Ok events.
Proof.
  destruct items as [|first others]; [now exists []|].
  destruct (signalEvents_cons first others) as (s & w & ss & E & _).
  eexists. exact E.
Qed.

Lemma ranking_length (items : list RotationItem) :
  List.length (sectorStats items) = List.length (Spec.populated items).
Proof.
  destruct (sectorStats_ranking items) as (Hp & _).
  apply Permutation_length in Hp. now rewrite length_map in Hp.
Qed.

End SignalFacts.


(** ** Totality of the emitter and independence from the filter *)

Section PageFacts.

Import Sectors.

Lemma members_allItems (COINS : list Coin) market trends (s : Sector) :
  match Spec.members (allItems COINS market trends) s with
  | [] => false
  | _ :: _ => true
  end
  = existsb (fun c => sector_eqb (sector c) s) COINS.
Proof.
  unfold Spec.members, allItems.
  induction COINS as [|c COINS IH]; [reflexivity|].
  cbn [map filter existsb coin].
  destruct (sector_eqb (sector c) s); [reflexivity | exact IH].
Qed.

Lemma populated_allItems (COINS : list Coin) market trends :
  Spec.populated (allItems COINS market trends) = Spec.sectorsOf COINS.
Proof.
  unfold Spec.populated, Spec.sectorsOf. cbn [filter].
  now rewrite !members_allItems.
Qed.

(** With fewer than two populated sectors only coin messages are pushed. *)
Lemma signalEvents_few_sectors (items : list RotationItem) :
  (List.length (Spec.populated items) < 2)%nat ->
  exists events,
    signalEvents items = Ok events
    /\ Forall (fun e => Spec.kind e = Spec.StrongestCoin
                        \/ Spec.kind e = Spec.WeakestCoin) events.
Proof.
  intros Hfew. rewrite <- ranking_length in Hfew.
  destruct items as [|first others]; [exists []; split; [reflexivity|constructor]|].
  destruct (signalEvents_cons first others)
    as (strongest & weakest & sectorSignals & E & _ & _ & _ & _ & Hsec).
  eexists. split; [exact E|].
  destruct (sectorStats (first :: others)) as [|a [|b more]];
    [| |cbn in Hfew; lia]; subst sectorSignals; cbn [app];
    destruct (Qle_bool 6 (score strongest)), (Qle_bool (score weakest) (-6));
    repeat first
      [ apply Forall_nil
      | apply Forall_cons; [first [left; reflexivity | right; reflexivity]|] ].
Qed.

Lemma signalMessages_events (COINS : list Coin) (st : State) :
  exists events,
    signalMessages COINS st = Ok (map render events)
    /\ match marketData st, trendData st with
       | Some market, Some trends =>
           signalEvents (allItems COINS market trends) = Ok events
       | _, _ => events = []
       end.
Proof.
  unfold signalMessages.
  destruct (marketData st) as [market|]; [|now exists []].
  destruct (trendData st) as [trends|]; [|now exists []].
  destruct (signalEvents_total (allItems COINS market trends)) as (events & E).
  exists events. rewrite E. now split.
Qed.

End PageFacts.

(** C7.  The emitter never throws: for every coin set, the empty one
    included, it returns the list of messages it pushed, and so does the page
    for every state of its tables.  When fewer than two sectors have members
    every message is a strongest-coin or weakest-coin message; for no coins
    at all, or before both tables are loaded, the list is empty. *)
Theorem signal_emitter_total :
  (forall items : list Sectors.RotationItem,
     exists events,
       Sectors.signalEvents items = Ok events
       /\ ((List.length (Spec.populated items) < 2)%nat ->
             Forall (fun e => Spec.kind e = Spec.StrongestCoin
                              \/ Spec.kind e = Spec.WeakestCoin) events))
  /\ (forall (COINS : list Sectors.Coin) (st : Sectors.State),
        exists events view,
          Sectors.signalMessages COINS st = Ok (map Sectors.render events)
          /\ Sectors.Home COINS st = Ok view
          /\ Sectors.view_signalMessages view = map Sectors.render events
          /\ ((List.length (Spec.sectorsOf COINS) < 2)%nat ->
                Forall (fun e => Spec.kind e = Spec.StrongestCoin
                                 \/ Spec.kind e = Spec.WeakestCoin) events)
          /\ (COINS = [] -> events = [])
          /\ (Sectors.marketData st = None \/ Sectors.trendData st = None ->
                events = [])).
Proof.
  split.
  - intros items.
    destruct (signalEvents_total items) as (events & E).
    exists events. split; [exact E|].
    intros Hfew.
    destruct (signalEvents_few_sectors items Hfew) as (events' & E' & Hk).
    congruence.
  - intros COINS st.
    destruct (signalMessages_events COINS st) as (events & E & Hev).
    exists events. eexists.
    split; [exact E|].
    split; [unfold Sectors.Home; rewrite E; reflexivity|].
    split; [reflexivity|].
    destruct (Sectors.marketData st) as [market|],
             (Sectors.trendData st) as [trends|].
    + split; [|split].
      * intros Hfew.
        rewrite <- (populated_allItems COINS market trends) in Hfew.
        destruct (signalEvents_few_sectors _ Hfew) as (events' & E' & Hk).
        congruence.
      * intros ->. cbn in Hev. congruence.
      * intros [H|H]; discriminate H.
    + subst events. repeat split; auto.
    + subst events. repeat split; auto.
    + subst events. repeat split; auto.
Qed.

(** The filter does change what the page shows. *)
Example filter_changes_the_board :
  map Sectors.coin
    (Sectors.rotationList Sectors.COINS
       {| Sectors.marketData := Some (fun _ => None);
          Sectors.trendData := None;
          Sectors.sectorFilter := Some Sectors.Oracle |})
  <> map Sectors.coin
       (Sectors.rotationList Sectors.COINS
          {| Sectors.marketData := Some (fun _ => None);
             Sectors.trendData := None;
             Sectors.sectorFilter := None |}).
Proof. cbn. discriminate. Qed.

(** C9.  Two renders over the same market and trend tables that differ only
    in the sector filter both succeed and carry the same signal messages. *)
Theorem signals_ignore_filter :
  forall (COINS : list Sectors.Coin)
         (market : option (string -> option Sectors.MarketData))
         (trends : option (string -> option Sectors.TrendInfo))
         (filter1 filter2 : option Sectors.Sector),
    let st1 := {| Sectors.marketData := market; Sectors.trendData := trends;
                  Sectors.sectorFilter := filter1 |} in
    let st2 := {| Sectors.marketData := market; Sectors.trendData := trends;
                  Sectors.sectorFilter := filter2 |} in
    Sectors.signalMessages COINS st1 = Sectors.signalMessages COINS st2
    /\ exists view1 view2,
         Sectors.Home COINS st1 = Ok view1
         /\ Sectors.Home COINS st2 = Ok view2
         /\ Sectors.view_signalMessages view1 = Sectors.view_signalMessages view2
         /\ Sectors.view_visibleCoins view1 = Sectors.visibleCoins COINS filter1
         /\ Sectors.view_visibleCoins view2 = Sectors.visibleCoins COINS filter2.
Proof.
  intros COINS market trends filter1 filter2 st1 st2.
  assert (E : Sectors.signalMessages COINS st1 = Sectors.signalMessages COINS st2)
    by reflexivity.
  split; [exact E|].
  destruct (signalMessages_events COINS st1) as (events & E1 & _).
  unfold Sectors.Home. rewrite <- E, E1. cbn [bind].
  do 2 eexists. repeat split.
Qed.
